(** * ThinkArena game cores: a shallow embedding and its properties

    The two games of the repository, [TravelGame] and [DecoderGame] (the
    modules [game-travel] and [game-decoder] that [play.ts] imports), are
    embedded as pure state-passing functions: every tool's [execute] takes
    the game object (state and database) and returns the game object after
    the call together with the tool result.

    Numbers are JavaScript doubles in the source; every number the games
    hold is an integer far below 2^53, and they are modelled as [Z].
    Strings are modelled as sequences of code units below 256. *)

From Stdlib Require Import ZArith String Ascii List Bool Lia.
From stdpp Require Import base option gmap strings list.
Import ListNotations.
Open Scope Z_scope.

(** ** JavaScript string and array primitives used by the tools *)

Module Js.

(** [s.split(c)[0]]: the part of [s] before the first [c]. *)
Fixpoint split0 (c : ascii) (s : string) : string :=
  match s with
  | EmptyString => EmptyString
  | String a s' => if Ascii.eqb a c then EmptyString else String a (split0 c s')
  end.

(** White space and line terminators among the code units below 256. *)
Definition is_space (a : ascii) : bool :=
  let n := N_of_ascii a in
  ((9 <=? n) && (n <=? 13) || (n =? 32) || (n =? 160))%N.

Fixpoint trimStart (s : string) : string :=
  match s with
  | EmptyString => EmptyString
  | String a s' => if is_space a then trimStart s' else s
  end.

Fixpoint trimEnd (s : string) : string :=
  match s with
  | EmptyString => EmptyString
  | String a s' =>
      let r := trimEnd s' in
      if is_space a && String.eqb r EmptyString then EmptyString else String a r
  end.

(** [s.trim()] *)
Definition trim (s : string) : string := trimEnd (trimStart s).

(** [s.startsWith(p)] *)
Definition startsWith (s p : string) : bool := String.prefix p s.

(** [s.includes(sub)] on strings. *)
Fixpoint str_includes (s sub : string) : bool :=
  String.prefix sub s ||
  match s with
  | EmptyString => false
  | String _ s' => str_includes s' sub
  end.

Fixpoint drop (n : nat) (s : string) : string :=
  match n, s with
  | O, _ => s
  | S _, EmptyString => EmptyString
  | S n', String _ s' => drop n' s'
  end.

(** [s.replace(p, r)] with a string pattern: only the first occurrence. *)
Fixpoint replace (s p r : string) : string :=
  if String.prefix p s then r +:+ drop (String.length p) s
  else match s with
       | EmptyString => EmptyString
       | String a s' => String a (replace s' p r)
       end.

(** [arr.includes(x)] on an array of strings. *)
Definition includes (l : list string) (x : string) : bool :=
  existsb (String.eqb x) l.

(** [arr.find(p)] *)
Definition find {A} (p : A -> bool) (l : list A) : option A := List.find p l.

(** [i = arr.indexOf(x); if (i > -1) arr.splice(i, 1)]: the first
    occurrence of [x] is removed, if there is one. *)
Fixpoint remove_first (x : string) (l : list string) : list string :=
  match l with
  | [] => []
  | y :: l' => if String.eqb y x then l' else y :: remove_first x l'
  end.

(** Truthiness of a value that is a string or [undefined]. *)
Definition truthy (o : option string) : bool :=
  match o with
  | Some s => negb (String.eqb s EmptyString)
  | None => false
  end.

End Js.

(** ** The Alien Signal Decoder game ([DecoderGame] and its eight tools) *)

Module Decoder.

Definition MAX_STEPS : Z := 20.

Inductive RiskLevel := low | medium | high | very_high.

Record AreaInfo := {
  area_description : string;
  area_artifacts : list string;
  area_signals : list string;
  area_connections : list string;
  area_riskLevel : RiskLevel;
  area_explored : bool
}.

Record ArtifactInfo := {
  artifact_value : Z;
  artifact_type : string;
  artifact_aidsIn : list string;
  artifact_hint : string
}.

Record Recipe := {
  recipe_decoded : string;
  recipe_value : Z;
  recipe_bonus : string
}.

Record GameState := {
  position : string;
  energy : Z;
  artifacts : list string;
  decodedSignals : list string;
  exploredAreas : list string;
  gatheredClues : list string;
  hypotheses : list string;
  score : Z;
  stepCount : Z;
  bonusesEarned : list string;
  completed : bool
}.

Record Database := {
  area : gmap string AreaInfo;
  artifact : gmap string ArtifactInfo;
  signal : gmap string Recipe
}.

(** The game object: [this.state] and [this.database]. *)
Record DecoderGame := {
  state : GameState;
  database : Database
}.

(** *** Field assignments *)

Definition set_position (v : string) (s : GameState) : GameState :=
  {| position := v; energy := energy s; artifacts := artifacts s;
     decodedSignals := decodedSignals s; exploredAreas := exploredAreas s;
     gatheredClues := gatheredClues s; hypotheses := hypotheses s;
     score := score s; stepCount := stepCount s;
     bonusesEarned := bonusesEarned s; completed := completed s |}.

Definition set_energy (v : Z) (s : GameState) : GameState :=
  {| position := position s; energy := v; artifacts := artifacts s;
     decodedSignals := decodedSignals s; exploredAreas := exploredAreas s;
     gatheredClues := gatheredClues s; hypotheses := hypotheses s;
     score := score s; stepCount := stepCount s;
     bonusesEarned := bonusesEarned s; completed := completed s |}.

Definition set_artifacts (v : list string) (s : GameState) : GameState :=
  {| position := position s; energy := energy s; artifacts := v;
     decodedSignals := decodedSignals s; exploredAreas := exploredAreas s;
     gatheredClues := gatheredClues s; hypotheses := hypotheses s;
     score := score s; stepCount := stepCount s;
     bonusesEarned := bonusesEarned s; completed := completed s |}.

Definition set_decodedSignals (v : list string) (s : GameState) : GameState :=
  {| position := position s; energy := energy s; artifacts := artifacts s;
     decodedSignals := v; exploredAreas := exploredAreas s;
     gatheredClues := gatheredClues s; hypotheses := hypotheses s;
     score := score s; stepCount := stepCount s;
     bonusesEarned := bonusesEarned s; completed := completed s |}.

Definition set_exploredAreas (v : list string) (s : GameState) : GameState :=
  {| position := position s; energy := energy s; artifacts := artifacts s;
     decodedSignals := decodedSignals s; exploredAreas := v;
     gatheredClues := gatheredClues s; hypotheses := hypotheses s;
     score := score s; stepCount := stepCount s;
     bonusesEarned := bonusesEarned s; completed := completed s |}.

Definition set_gatheredClues (v : list string) (s : GameState) : GameState :=
  {| position := position s; energy := energy s; artifacts := artifacts s;
     decodedSignals := decodedSignals s; exploredAreas := exploredAreas s;
     gatheredClues := v; hypotheses := hypotheses s;
     score := score s; stepCount := stepCount s;
     bonusesEarned := bonusesEarned s; completed := completed s |}.

Definition set_score (v : Z) (s : GameState) : GameState :=
  {| position := position s; energy := energy s; artifacts := artifacts s;
     decodedSignals := decodedSignals s; exploredAreas := exploredAreas s;
     gatheredClues := gatheredClues s; hypotheses := hypotheses s;
     score := v; stepCount := stepCount s;
     bonusesEarned := bonusesEarned s; completed := completed s |}.

Definition set_stepCount (v : Z) (s : GameState) : GameState :=
  {| position := position s; energy := energy s; artifacts := artifacts s;
     decodedSignals := decodedSignals s; exploredAreas := exploredAreas s;
     gatheredClues := gatheredClues s; hypotheses := hypotheses s;
     score := score s; stepCount := v;
     bonusesEarned := bonusesEarned s; completed := completed s |}.

Definition set_bonusesEarned (v : list string) (s : GameState) : GameState :=
  {| position := position s; energy := energy s; artifacts := artifacts s;
     decodedSignals := decodedSignals s; exploredAreas := exploredAreas s;
     gatheredClues := gatheredClues s; hypotheses := hypotheses s;
     score := score s; stepCount := stepCount s;
     bonusesEarned := v; completed := completed s |}.

Definition set_completed (v : bool) (s : GameState) : GameState :=
  {| position := position s; energy := energy s; artifacts := artifacts s;
     decodedSignals := decodedSignals s; exploredAreas := exploredAreas s;
     gatheredClues := gatheredClues s; hypotheses := hypotheses s;
     score := score s; stepCount := stepCount s;
     bonusesEarned := bonusesEarned s; completed := v |}.

Definition set_area_explored (v : bool) (a : AreaInfo) : AreaInfo :=
  {| area_description := area_description a; area_artifacts := area_artifacts a;
     area_signals := area_signals a; area_connections := area_connections a;
     area_riskLevel := area_riskLevel a; area_explored := v |}.

Definition set_area_artifacts (v : list string) (a : AreaInfo) : AreaInfo :=
  {| area_description := area_description a; area_artifacts := v;
     area_signals := area_signals a; area_connections := area_connections a;
     area_riskLevel := area_riskLevel a; area_explored := area_explored a |}.

(** [game.state = f(game.state)] *)
Definition upd_state (f : GameState -> GameState) (g : DecoderGame) : DecoderGame :=
  {| state := f (state g); database := database g |}.

(** The object stored under [name] in [game.database.area] is replaced:
    the tools mutate that object in place, and every later lookup of [name]
    sees the mutation. *)
Definition put_area (name : string) (a : AreaInfo) (g : DecoderGame) : DecoderGame :=
  {| state := state g;
     database := {| area := <[name := a]> (area (database g));
                    artifact := artifact (database g);
                    signal := signal (database g) |} |}.

(** *** [DecoderGame.init] *)

Definition init_state : GameState :=
  {| position := "landing_zone"; energy := 30; artifacts := [];
     decodedSignals := []; exploredAreas := ["landing_zone"];
     gatheredClues := []; hypotheses := []; score := 0; stepCount := 0;
     bonusesEarned := []; completed := false |}.

Definition init_area : gmap string AreaInfo :=
  list_to_map [
    ("landing_zone",
     {| area_description := "Your starting point with basic equipment and faint signal readings.";
        area_artifacts := ["signal_scanner"; "energy_crystal"];
        area_signals := ["basic_frequency: Alpha waves detected - pattern repeats every 3 units"];
        area_connections := ["volcanic_plains"; "crystal_forest"];
        area_riskLevel := low; area_explored := true |});
    ("volcanic_plains",
     {| area_description := "Hot, rocky terrain with geothermal activity and strong interference.";
        area_artifacts := ["heat_resistant_probe"; "lava_sample"];
        area_signals := ["interference_pattern: Beta spikes - correlates with heat sources, offset by 2"];
        area_connections := ["landing_zone"; "underground_caverns"; "ancient_ruins"];
        area_riskLevel := medium; area_explored := false |});
    ("crystal_forest",
     {| area_description := "Dense forest of glowing crystals emitting harmonic vibrations.";
        area_artifacts := ["vibration_analyzer"; "crystal_shard"];
        area_signals := ["harmonic_sequence: Gamma harmonics - builds on alpha, multiplies by 1.5"];
        area_connections := ["landing_zone"; "hidden_lake"; "ancient_ruins"];
        area_riskLevel := low; area_explored := false |});
    ("underground_caverns",
     {| area_description := "Dark caves with echoing sounds and hidden chambers.";
        area_artifacts := ["echo_locator"; "fossil_remnant"];
        area_signals := ["echo_code: Delta echoes - reflects beta, inverts every 4th unit"];
        area_connections := ["volcanic_plains"; "signal_source"];
        area_riskLevel := high; area_explored := false |});
    ("hidden_lake",
     {| area_description := "Serene lake with bioluminescent waters and submerged relics.";
        area_artifacts := ["water_sampler"; "aquatic_artifact"];
        area_signals := ["wave_ripple: Epsilon ripples - combines gamma and alpha, averages values"];
        area_connections := ["crystal_forest"; "signal_source"];
        area_riskLevel := medium; area_explored := false |});
    ("ancient_ruins",
     {| area_description := "Ruined structures with engraved symbols and faded tech.";
        area_artifacts := ["symbol_decoder"; "engraved_tablet"];
        area_signals := ["symbol_cipher: Zeta symbols - synthesizes beta and delta, shifts by 3"];
        area_connections := ["volcanic_plains"; "crystal_forest"];
        area_riskLevel := medium; area_explored := false |});
    ("signal_source",
     {| area_description := "The core mystery site with overwhelming signal strength.";
        area_artifacts := ["master_artifact"];
        area_signals := ["core_transmission: Omega core - integrates all patterns, solve with combined clues"];
        area_connections := ["underground_caverns"; "hidden_lake"];
        area_riskLevel := very_high; area_explored := false |})
  ].

Definition mk_artifact (v : Z) (t : string) (a : list string) (h : string) : ArtifactInfo :=
  {| artifact_value := v; artifact_type := t; artifact_aidsIn := a; artifact_hint := h |}.

Definition init_artifact : gmap string ArtifactInfo :=
  list_to_map [
    ("signal_scanner", mk_artifact 20 "tool" ["decode_signal"] "Reduces decode energy cost from 2 to 1");
    ("energy_crystal", mk_artifact 15 "resource" ["restore_energy"] "Use to restore 5 energy (one-time consumable)");
    ("heat_resistant_probe", mk_artifact 30 "tool" ["explore_high_risk"] "Provides data about thermal patterns");
    ("lava_sample", mk_artifact 25 "sample" ["analyze_clue"] "Contains thermal data useful for pattern analysis");
    ("vibration_analyzer", mk_artifact 35 "tool" ["decode_signal"] "Reduces analyze cost to 0 in harmonic/crystal areas");
    ("crystal_shard", mk_artifact 20 "sample" ["combine_artifacts"] "Crystalline sample with harmonic properties");
    ("echo_locator", mk_artifact 40 "tool" ["navigate"] "Helps map underground connections");
    ("fossil_remnant", mk_artifact 30 "sample" ["analyze_clue"] "Ancient biological data for pattern recognition");
    ("water_sampler", mk_artifact 25 "tool" ["explore_medium_risk"] "Useful for analyzing aquatic signals");
    ("aquatic_artifact", mk_artifact 35 "relic" ["combine_artifacts"] "Ancient tech from submerged ruins");
    ("symbol_decoder", mk_artifact 45 "tool" ["decode_signal"] "Translates ancient cipher symbols");
    ("engraved_tablet", mk_artifact 40 "relic" ["analyze_clue"] "Contains key cipher patterns");
    ("master_artifact", mk_artifact 100 "core" ["final_decode"] "Central mystery artifact at signal source")
  ].

Definition mk_recipe (d : string) (v : Z) (b : string) : Recipe :=
  {| recipe_decoded := d; recipe_value := v; recipe_bonus := b |}.

Definition init_signal : gmap string Recipe :=
  list_to_map [
    ("basic_frequency+harmonic_sequence", mk_recipe "Alpha-Gamma Harmonic Link" 100 "pattern_chain");
    ("interference_pattern+echo_code", mk_recipe "Beta-Delta Thermal Echo" 120 "risk_reward");
    ("wave_ripple+symbol_cipher", mk_recipe "Epsilon-Zeta Ancient Code" 150 "synthesis");
    ("basic_frequency+interference_pattern", mk_recipe "Alpha-Beta Baseline" 90 "foundation");
    ("harmonic_sequence+wave_ripple", mk_recipe "Gamma-Epsilon Resonance" 110 "resonance");
    ("echo_code+symbol_cipher", mk_recipe "Delta-Zeta Underground Cipher" 130 "ancient_link")
  ].

Definition init : DecoderGame :=
  {| state := init_state;
     database := {| area := init_area; artifact := init_artifact; signal := init_signal |} |}.

(** *** Tool results

    [createErrorResult(message)]: the messages of the eight tools, with the
    values interpolated into them. *)
Inductive ErrorMsg :=
| InsufficientEnergy (required available : Z)
| UnknownArea
| NotConnected
| ArtifactNotAvailable
| AlreadyCollected
| SignalNotAvailable (available : list string)
| AlreadyAnalyzed
| MissingClues (gathered : list string)
| IncompatibleSignals (gathered : list string)
| AlreadyDecoded
| NoEnergyCrystal
| MustBeAtSource
| NeedDecodes (have : Z).

Record ConnectionInfo := {
  conn_name : string;
  conn_explored : bool;
  conn_risk : RiskLevel;
  conn_energyCost : Z;
  conn_description : string
}.

(** [createSuccessResult(data)]: the data of each tool, without the constant
    [success], [message] and [hint] fields and the [details] text of an
    analysis. Of the finalize data the fields [efficiencyBonus], [finalScore]
    and [ranking] are left out too: they are computed from a quotient
    formatted by [toFixed(1)], and are returned to the caller only, never
    stored in the game. *)
Inductive Payload :=
| ExploreData (currentPosition : string) (connectedAreas : list ConnectionInfo)
    (energyRemaining stepsUsed : Z)
| MoveExploredData (newPosition description : string)
    (signalsAvailable artifactsAvailable : list string)
    (exploreBonus currentScore energyRemaining : Z)
| MoveReturnedData (newPosition : string) (currentScore energyRemaining stepsUsed : Z)
| CollectData (name : string) (value : Z) (hint : string)
    (currentScore energyRemaining stepsUsed : Z)
| AnalyzeData (matching signalName : string) (energyCost : Z) (reducedCost : bool)
    (analysisBonus currentScore energyRemaining stepsUsed : Z)
| DecodeData (recipe : Recipe) (energyCost : Z) (reducedCost : bool)
    (currentScore energyRemaining stepsUsed : Z)
| PlanData (moves : list string)
| CrystalData (energyRestored energyRemaining stepsUsed : Z)
| FinalizeData (baseScore omegaBonus energyBonus stepsUsed : Z)
    (areasExplored cluesGathered signalsDecoded : nat) (finalHypothesis : string).

(** What a call of [execute] ends in: one of the two results, or the
    [TypeError] of reading a property of [undefined] (a table lookup that
    found nothing), which [createTool] catches. *)
Inductive ToolResult :=
| SuccessResult (data : Payload)
| ErrorResult (error : ErrorMsg)
| TypeErrorThrown.

Definition is_error (r : ToolResult) : bool :=
  match r with ErrorResult _ => true | _ => false end.

Definition is_success (r : ToolResult) : bool :=
  match r with SuccessResult _ => true | _ => false end.

(** *** The tools

    The tables are typed [Record<string, _>] and modelled as finite maps
    over their own keys. (A JavaScript object also answers to the names it
    inherits from [Object.prototype]; none of them is a key, a connection,
    an artifact or a clue name of the game, and a tool called with one
    rejects the call at its next check, with the game unchanged.) *)

Definition riskCosts (r : RiskLevel) : Z :=
  match r with low => 1 | medium => 2 | high => 3 | very_high => 4 end.

(** [s.split(':')[0].trim()] *)
Definition signalName (s : string) : string := Js.trim (Js.split0 ":" s).

(** [++] on a counter. *)
Definition incr_stepCount (s : GameState) : GameState :=
  set_stepCount (stepCount s + 1) s.

Definition ExploreConnectionsTool_execute (g : DecoderGame) : DecoderGame * ToolResult :=
  let g1 := upd_state incr_stepCount g in
  match area (database g1) !! position (state g1) with
  | None => (g1, TypeErrorThrown)
  | Some currentArea =>
      let connection (areaName : string) : option ConnectionInfo :=
        a ← area (database g1) !! areaName;
        Some {| conn_name := areaName; conn_explored := area_explored a;
                conn_risk := area_riskLevel a;
                conn_energyCost := riskCosts (area_riskLevel a);
                conn_description := area_description a |} in
      match mapM connection (area_connections currentArea) with
      | None => (g1, TypeErrorThrown)
      | Some connections =>
          (g1, SuccessResult (ExploreData (position (state g1)) connections
                                (energy (state g1)) (stepCount (state g1))))
      end
  end.

Definition MoveToAreaTool_execute (name : string) (g : DecoderGame)
  : DecoderGame * ToolResult :=
  let currentArea := area (database g) !! position (state g) in
  match area (database g) !! name with
  | None => (g, ErrorResult UnknownArea)
  | Some targetArea =>
    match currentArea with
    | None => (g, TypeErrorThrown)
    | Some currentArea =>
      if negb (Js.includes (area_connections currentArea) name)
      then (g, ErrorResult NotConnected)
      else
        let energyCost := riskCosts (area_riskLevel targetArea) in
        if energy (state g) <? energyCost
        then (g, ErrorResult (InsufficientEnergy energyCost (energy (state g))))
        else
          let g1 := upd_state (fun s =>
                      set_position name
                        (incr_stepCount (set_energy (energy s - energyCost) s))) g in
          if negb (area_explored targetArea) then
            let g2 := put_area name (set_area_explored true targetArea) g1 in
            let exploreBonus := energyCost * 10 in
            let g3 := upd_state (fun s =>
                        set_score (score s + exploreBonus)
                          (set_exploredAreas (exploredAreas s ++ [name]) s)) g2 in
            (g3, SuccessResult
                   (MoveExploredData name (area_description targetArea)
                      (area_signals targetArea) (area_artifacts targetArea)
                      exploreBonus (score (state g3)) (energy (state g3))))
          else
            (g1, SuccessResult
                   (MoveReturnedData name (score (state g1)) (energy (state g1))
                      (stepCount (state g1))))
    end
  end.

Definition CollectArtifactTool_execute (name : string) (g : DecoderGame)
  : DecoderGame * ToolResult :=
  let energyCost := 1 in
  if energy (state g) <? energyCost
  then (g, ErrorResult (InsufficientEnergy energyCost (energy (state g))))
  else
    match area (database g) !! position (state g) with
    | None => (g, TypeErrorThrown)
    | Some currentArea =>
      if negb (Js.includes (area_artifacts currentArea) name)
      then (g, ErrorResult ArtifactNotAvailable)
      else if Js.includes (artifacts (state g)) name
      then (g, ErrorResult AlreadyCollected)
      else
        let g1 := upd_state (fun s =>
                    set_artifacts (artifacts s ++ [name])
                      (incr_stepCount (set_energy (energy s - energyCost) s))) g in
        match artifact (database g1) !! name with
        | None => (g1, TypeErrorThrown)
        | Some artifactData =>
            let g2 := upd_state (fun s =>
                        set_score (score s + artifact_value artifactData) s) g1 in
            let g3 := put_area (position (state g))
                        (set_area_artifacts
                           (Js.remove_first name (area_artifacts currentArea))
                           currentArea) g2 in
            (g3, SuccessResult
                   (CollectData name (artifact_value artifactData)
                      (artifact_hint artifactData) (score (state g3))
                      (energy (state g3)) (stepCount (state g3))))
        end
    end.

(** The predicate of [AnalyzeClueTool] on the signals of the current area. *)
Definition isHarmonicArea (a : AreaInfo) : bool :=
  existsb (fun s => Js.str_includes s "harmonic" || Js.str_includes s "Gamma")
    (area_signals a).

(** The matcher shared by [currentArea.signals.find] and [findClue]. *)
Definition matches (input : string) (s : string) : bool :=
  String.eqb (signalName s) (signalName input) || String.eqb s input.

Definition analyzeCost (g : DecoderGame) (currentArea : AreaInfo) : Z :=
  if Js.includes (artifacts (state g)) "vibration_analyzer" && isHarmonicArea currentArea
  then 0 else 1.

Definition AnalyzeClueTool_execute (input : string) (g : DecoderGame)
  : DecoderGame * ToolResult :=
  let hasVibrationAnalyzer := Js.includes (artifacts (state g)) "vibration_analyzer" in
  match area (database g) !! position (state g) with
  | None => (g, TypeErrorThrown)
  | Some currentArea =>
    let energyCost := analyzeCost g currentArea in
    if energy (state g) <? energyCost
    then (g, ErrorResult (InsufficientEnergy energyCost (energy (state g))))
    else
      let matchingSignal := Js.find (matches input) (area_signals currentArea) in
      match matchingSignal with
      | Some m =>
        if negb (Js.truthy matchingSignal)
        then (g, ErrorResult
                   (SignalNotAvailable (map (Js.split0 ":") (area_signals currentArea))))
        else if Js.includes (gatheredClues (state g)) m
        then (g, ErrorResult AlreadyAnalyzed)
        else
          let analysisBonus := 30 in
          let g1 := upd_state (fun s =>
                      set_score (score s + analysisBonus)
                        (set_gatheredClues (gatheredClues s ++ [m])
                           (incr_stepCount (set_energy (energy s - energyCost) s)))) g in
          (g1, SuccessResult
                 (AnalyzeData m (signalName m) energyCost
                    (hasVibrationAnalyzer && isHarmonicArea currentArea)
                    analysisBonus (score (state g1)) (energy (state g1))
                    (stepCount (state g1))))
      | None =>
          (g, ErrorResult
                (SignalNotAvailable (map (Js.split0 ":") (area_signals currentArea))))
      end
  end.

Definition decodeCost (g : DecoderGame) : Z :=
  if Js.includes (artifacts (state g)) "signal_scanner" then 1 else 2.

Definition findClue (g : DecoderGame) (input : string) : option string :=
  Js.find (matches input) (gatheredClues (state g)).

(** [game.database.signal[comboKey1] || game.database.signal[comboKey2]] *)
Definition lookupRecipe (g : DecoderGame) (clue1 clue2 : string) : option Recipe :=
  let comboKey1 := signalName clue1 +:+ "+" +:+ signalName clue2 in
  let comboKey2 := signalName clue2 +:+ "+" +:+ signalName clue1 in
  match signal (database g) !! comboKey1 with
  | Some r => Some r
  | None => signal (database g) !! comboKey2
  end.

Definition DecodeSignalTool_execute (signal1 signal2 : string) (g : DecoderGame)
  : DecoderGame * ToolResult :=
  let energyCost := decodeCost g in
  let hasSignalScanner := Js.includes (artifacts (state g)) "signal_scanner" in
  if energy (state g) <? energyCost
  then (g, ErrorResult (InsufficientEnergy energyCost (energy (state g))))
  else
    let clue1 := findClue g signal1 in
    let clue2 := findClue g signal2 in
    match clue1, clue2 with
    | Some c1, Some c2 =>
      if negb (Js.truthy clue1) || negb (Js.truthy clue2)
      then (g, ErrorResult (MissingClues (map (Js.split0 ":") (gatheredClues (state g)))))
      else
        match lookupRecipe g c1 c2 with
        | None =>
            (g, ErrorResult
                  (IncompatibleSignals (map (Js.split0 ":") (gatheredClues (state g)))))
        | Some recipe =>
            let decodedKey := c1 +:+ "+" +:+ c2 in
            let reverseKey := c2 +:+ "+" +:+ c1 in
            if Js.includes (decodedSignals (state g)) decodedKey
               || Js.includes (decodedSignals (state g)) reverseKey
            then (g, ErrorResult AlreadyDecoded)
            else
              let g1 := upd_state (fun s =>
                          set_bonusesEarned (bonusesEarned s ++ [recipe_bonus recipe])
                            (set_score (score s + recipe_value recipe)
                               (set_decodedSignals (decodedSignals s ++ [decodedKey])
                                  (incr_stepCount
                                     (set_energy (energy s - energyCost) s))))) g in
              (g1, SuccessResult
                     (DecodeData recipe energyCost hasSignalScanner
                        (score (state g1)) (energy (state g1)) (stepCount (state g1))))
        end
    | _, _ =>
        (g, ErrorResult (MissingClues (map (Js.split0 ":") (gatheredClues (state g)))))
    end.

Definition PlanOptimalRouteTool_execute (moves : list string) (g : DecoderGame)
  : DecoderGame * ToolResult :=
  (upd_state incr_stepCount g, SuccessResult (PlanData moves)).

Definition UseEnergyCrystalTool_execute (g : DecoderGame) : DecoderGame * ToolResult :=
  if negb (Js.includes (artifacts (state g)) "energy_crystal")
  then (g, ErrorResult NoEnergyCrystal)
  else
    let g1 := upd_state (fun s =>
                set_energy (energy s + 5)
                  (set_artifacts (Js.remove_first "energy_crystal" (artifacts s))
                     (incr_stepCount s))) g in
    (g1, SuccessResult (CrystalData 5 (energy (state g1)) (stepCount (state g1)))).

Definition FinalizeDiscoveryTool_execute (finalHypothesis : string) (g : DecoderGame)
  : DecoderGame * ToolResult :=
  let g1 := upd_state incr_stepCount g in
  let isAtSource := String.eqb (position (state g1)) "signal_source" in
  let hasMinimumDecodes := (3 <=? length (decodedSignals (state g1)))%nat in
  if negb isAtSource then (g1, ErrorResult MustBeAtSource)
  else if negb hasMinimumDecodes
  then (g1, ErrorResult (NeedDecodes (Z.of_nat (length (decodedSignals (state g1))))))
  else
    let omegaBonus := 500 in
    let g2 := upd_state (fun s =>
                set_bonusesEarned (bonusesEarned s ++ ["omega_revelation"])
                  (set_score (score s + omegaBonus) (set_completed true s))) g1 in
    let energyBonus := energy (state g2) * 10 in
    (g2, SuccessResult
           (FinalizeData (score (state g2)) omegaBonus energyBonus
              (stepCount (state g2)) (length (exploredAreas (state g2)))
              (length (gatheredClues (state g2)))
              (length (decodedSignals (state g2))) finalHypothesis)).

(** *** [DecoderGame.getFinalScore] and [isCompleted]

    [efficiency = score / stepCount] is compared with 100 and 50; with a
    positive step count the comparison of the quotient is the comparison
    written here on integers. *)
Definition efficiencyBonus (s : GameState) : Z :=
  if 0 <? stepCount s then
    if 100 * stepCount s <? score s then 200
    else if 50 * stepCount s <? score s then 100
    else 0
  else 0.

Definition getFinalScore (g : DecoderGame) : Z :=
  let energyBonus := energy (state g) * 10 in
  let reflectionBonus := Z.of_nat (length (hypotheses (state g))) * 50 in
  score (state g) + energyBonus + efficiencyBonus (state g) + reflectionBonus.

Definition isCompleted (g : DecoderGame) : bool := completed (state g).

(** *** The tools of [createDecoderGame], as the actions of the game *)

Inductive Action :=
| exploreConnections
| moveToArea (name : string)
| collectArtifact (name : string)
| analyzeClue (input : string)
| decodeSignal (signal1 signal2 : string)
| useEnergyCrystal
| planOptimalRoute (moves : list string)
| finalizeDiscovery (finalHypothesis : string).

Definition execute (a : Action) (g : DecoderGame) : DecoderGame * ToolResult :=
  match a with
  | exploreConnections => ExploreConnectionsTool_execute g
  | moveToArea name => MoveToAreaTool_execute name g
  | collectArtifact name => CollectArtifactTool_execute name g
  | analyzeClue input => AnalyzeClueTool_execute input g
  | decodeSignal s1 s2 => DecodeSignalTool_execute s1 s2 g
  | useEnergyCrystal => UseEnergyCrystalTool_execute g
  | planOptimalRoute moves => PlanOptimalRouteTool_execute moves g
  | finalizeDiscovery h => FinalizeDiscoveryTool_execute h g
  end.

(** The actions of a playthrough, applied one after the other. *)
Definition run (l : list Action) (g : DecoderGame) : DecoderGame :=
  fold_left (fun g a => fst (execute a g)) l g.

(** The states a playthrough can be in: [init], then any tool calls. *)
Inductive reachable : DecoderGame -> Prop :=
| reachable_init : reachable init
| reachable_execute a g : reachable g -> reachable (fst (execute a g)).

(** *** Definitions used by the properties

    The invariant of a playthrough. *)

Record wf (g : DecoderGame) : Prop := {
  wf_signal : signal (database g) = init_signal;
  wf_position : is_Some (area (database g) !! position (state g));
  wf_energy : 0 <= energy (state g);
  wf_hypotheses : hypotheses (state g) = []
}.

(** The energy an action is charged in state [g], as its tool computes it
    before the sufficiency check: the risk-tier cost of the target area, 1
    for a collection, and the costs of analysis and decoding after the
    artifact modifiers. The other four tools charge no energy. *)
Definition actionCost (a : Action) (g : DecoderGame) : option Z :=
  match a with
  | moveToArea name =>
      (fun t => riskCosts (area_riskLevel t)) <$> area (database g) !! name
  | collectArtifact _ => Some 1
  | analyzeClue _ => analyzeCost g <$> area (database g) !! position (state g)
  | decodeSignal _ _ => Some (decodeCost g)
  | _ => None
  end.

(** A playthrough that walks between the first two areas until the energy
    is used up. *)
Definition drain : list Action :=
  concat (repeat [moveToArea "crystal_forest"; moveToArea "landing_zone"] 15).

(** [game.database.area[name].explored], false for a name that is no area. *)
Definition explored (g : DecoderGame) (name : string) : bool :=
  match area (database g) !! name with
  | Some a => area_explored a
  | None => false
  end.

(** The explored flags and [exploredAreas] agree: the areas flagged are the
    start area and the areas moved into so far. *)
Definition flags_listed (g : DecoderGame) : Prop :=
  forall name, explored g name = Js.includes (exploredAreas (state g)) name.

(** The positions of a playthrough: the position [g] starts in, then the
    position after each call of [l]. An area is in it when the game started
    there or a move entered it. *)
Fixpoint history (l : list Action) (g : DecoderGame) : list string :=
  position (state g) ::
  match l with
  | [] => []
  | a :: l' => history l' (fst (execute a g))
  end.

(** Out and back, so that [volcanic_plains] has been entered and left. *)
Definition out_and_back : list Action :=
  [moveToArea "volcanic_plains"; moveToArea "landing_zone"].

(** Three pairs are decoded, then the source is reached with 9 energy. *)
Definition route_to_source : list Action :=
  [ collectArtifact "signal_scanner"; analyzeClue "basic_frequency";
    moveToArea "crystal_forest"; analyzeClue "harmonic_sequence";
    decodeSignal "basic_frequency" "harmonic_sequence";
    moveToArea "hidden_lake"; analyzeClue "wave_ripple";
    decodeSignal "wave_ripple" "harmonic_sequence";
    moveToArea "crystal_forest"; moveToArea "ancient_ruins";
    analyzeClue "symbol_cipher"; decodeSignal "symbol_cipher" "wave_ripple";
    moveToArea "crystal_forest"; moveToArea "hidden_lake";
    moveToArea "signal_source" ].

Definition at_source : DecoderGame := run route_to_source init.

(** The four actions that score: exploring, collecting, analyzing, decoding. *)
Definition scoring_action (a : Action) : bool :=
  match a with
  | moveToArea _ | collectArtifact _ | analyzeClue _ | decodeSignal _ _ => true
  | _ => false
  end.

(** C5 as the specification states it: any other action leaves the running
    score as it was. *)
Definition score_changed_by_scoring_actions_only : Prop :=
  forall (g : DecoderGame) (a : Action),
    reachable g -> scoring_action a = false ->
    score (state (fst (execute a g))) = score (state g).

(** Analysis and decoding with and without their modifier artifacts. *)
Definition analyzer_route : list Action :=
  [ moveToArea "crystal_forest"; collectArtifact "vibration_analyzer" ].

Definition scanner_route : list Action :=
  [ collectArtifact "signal_scanner"; analyzeClue "basic_frequency";
    moveToArea "crystal_forest"; analyzeClue "harmonic_sequence" ].

Definition bare_route : list Action :=
  [ analyzeClue "basic_frequency";
    moveToArea "crystal_forest"; analyzeClue "harmonic_sequence" ].

(** [game.state.completed = b] *)
Definition set_flag (b : bool) (g : DecoderGame) : DecoderGame :=
  upd_state (set_completed b) g.

(** All the ways of writing [s] as [x + "+" + y]. *)
Fixpoint plus_splits (s : string) : list (string * string) :=
  match s with
  | EmptyString => []
  | String c s' =>
      (if Ascii.eqb c "+" then [(EmptyString, s')] else []) ++
      map (fun p => (String c (fst p), snd p)) (plus_splits s')
  end.

(** The inputs [a] and [b] resolve to the clues [c1] and [c2], in either
    order. *)
Definition same_pair (g : DecoderGame) (a b c1 c2 : string) : Prop :=
  findClue g a = Some c1 /\ findClue g b = Some c2 \/
  findClue g a = Some c2 /\ findClue g b = Some c1.

(** C1 as the specification states it: the lookup is symmetric, and once a
    pair is decoded every later attempt on it is rejected as already
    decoded. *)
Definition decoded_pair_always_reported_decoded : Prop :=
  forall (g : DecoderGame) (a b c1 c2 : string),
    reachable g -> findClue g a = Some c1 -> findClue g b = Some c2 ->
    lookupRecipe g c1 c2 = lookupRecipe g c2 c1 /\
    (is_success (snd (execute (decodeSignal a b) g)) = true ->
     forall (l : list Action) (a' b' : string),
       let g2 := run l (fst (execute (decodeSignal a b) g)) in
       same_pair g2 a' b' c1 c2 ->
       execute (decodeSignal a' b') g2 = (g2, ErrorResult AlreadyDecoded)).

(** After the first decoding, walk until one unit of energy is left. *)
Definition walk_to_one : list Action :=
  concat (repeat [moveToArea "landing_zone"; moveToArea "crystal_forest"] 12).

End Decoder.

(** ** The Travel Planning game ([TravelGame] and its three tools) *)

Module Travel.

Definition MAX_STEPS : Z := 8.

Record GameState := {
  currentCity : string;
  budget : Z;
  visitedCities : list string;
  totalSpent : Z;
  score : Z;
  stepCount : Z;
  completed : bool
}.

Record CityInfo := {
  city_name : string;
  city_region : string;
  city_value : Z;
  city_description : string
}.

Record TransportInfo := {
  route_cost : Z;
  route_time : Z;
  route_description : string
}.

(** [routes] keeps the order of its keys, which [Object.keys] follows. *)
Record Database := {
  cities : gmap string CityInfo;
  routes : list (string * TransportInfo)
}.

Record TravelGame := {
  state : GameState;
  database : Database
}.

(** [game.database.routes[routeKey]] *)
Definition route_of (g : TravelGame) (routeKey : string) : option TransportInfo :=
  snd <$> List.find (fun p => String.eqb (fst p) routeKey) (routes (database g)).

Definition mk_city (n r : string) (v : Z) (d : string) : CityInfo :=
  {| city_name := n; city_region := r; city_value := v; city_description := d |}.

Definition mk_route (c t : Z) (d : string) : TransportInfo :=
  {| route_cost := c; route_time := t; route_description := d |}.

Definition init_state : GameState :=
  {| currentCity := "newyork"; budget := 2000; visitedCities := ["newyork"];
     totalSpent := 0; score := 0; stepCount := 0; completed := false |}.

Definition init_cities : gmap string CityInfo :=
  list_to_map [
    ("newyork", mk_city "New York" "North America" 50 "Starting city - financial capital");
    ("paris", mk_city "Paris" "Europe" 150 "City of lights - cultural hub");
    ("tokyo", mk_city "Tokyo" "Asia" 200 "Modern metropolis - tech center");
    ("sydney", mk_city "Sydney" "Australia" 120 "Harbor city - natural beauty");
    ("rio", mk_city "Rio de Janeiro" "South America" 130 "Carnival city - vibrant culture");
    ("capetown", mk_city "Cape Town" "Africa" 110 "Cape city - scenic landscapes")
  ].

Definition init_routes : list (string * TransportInfo) :=
  [ ("newyork-paris", mk_route 800 1 "Transatlantic flight");
    ("newyork-tokyo", mk_route 1200 2 "Long-haul flight");
    ("newyork-rio", mk_route 900 1 "South America flight");
    ("paris-tokyo", mk_route 1000 2 "Europe-Asia flight");
    ("paris-sydney", mk_route 1100 2 "Europe-Australia flight");
    ("paris-capetown", mk_route 850 1 "Europe-Africa flight");
    ("tokyo-sydney", mk_route 600 1 "Asia-Pacific flight");
    ("tokyo-capetown", mk_route 950 2 "Asia-Africa flight");
    ("sydney-capetown", mk_route 700 1 "Southern route flight");
    ("rio-capetown", mk_route 750 1 "Atlantic crossing flight");
    ("rio-sydney", mk_route 1050 2 "South America-Australia flight");
    ("paris-capetown_train", mk_route 400 3 "Scenic train route");
    ("newyork-rio_bus", mk_route 150 4 "Cross-country bus");
    ("tokyo-sydney_bus", mk_route 200 5 "Budget overland route") ].

Definition init_database : Database :=
  {| cities := init_cities; routes := init_routes |}.

(** [TravelGame.init] *)
Definition init : TravelGame :=
  {| state := init_state; database := init_database |}.

Definition requiredCities : list string :=
  ["paris"; "tokyo"; "sydney"; "rio"; "capetown"].

(** [requiredCities.every((city) => visitedCities.includes(city))] *)
Definition allVisited (g : TravelGame) : bool :=
  forallb (fun city => Js.includes (visitedCities (state g)) city) requiredCities.

(** [TravelGame.getFinalScore]; [None] is the [TypeError] of a visited city
    that is not in the table. [Math.floor(budget / 100)] is [budget / 100]
    on [Z]. *)
Definition getFinalScore (g : TravelGame) : option Z :=
  let cityScore :=
    fold_left (fun sum city =>
                 s ← sum; c ← cities (database g) !! city; Some (s + city_value c))
      (visitedCities (state g)) (Some 0) in
  let budgetBonus := budget (state g) / 100 * 5 in
  let completionBonus := if allVisited g then 500 else 0 in
  s ← cityScore; Some (s + budgetBonus + completionBonus).

Definition isCompleted (g : TravelGame) : bool := allVisited g.

Inductive ErrorMsg :=
| RouteNotAvailable (routeKey : string)
| WrongStart (routeKey city : string)
| InsufficientBudget (required available : Z)
| NotEnoughSteps (required available : Z).

Record RouteLine := {
  line_routeKey : string;
  line_destination : string;
  line_cost : Z;
  line_time : Z;
  line_description : string
}.

(** The data of the three tools; the suggestion and progress texts of
    [planRoute] are left out. *)
Inductive Payload :=
| CheckRoutesData (lines : list RouteLine) (currentCityName : string)
    (budgetRemaining : Z) (visitedNames : list string) (stepsRemaining : Z)
| TravelData (newCity : string) (cost timeSpent visitBonus budgetRemaining
    stepsRemaining : Z) (totalVisited : nat)
| PlanRouteData (currentCityName : string) (remainingNames : list string).

Inductive ToolResult :=
| SuccessResult (data : Payload)
| ErrorResult (error : ErrorMsg)
| TypeErrorThrown.

Definition is_success (r : ToolResult) : bool :=
  match r with SuccessResult _ => true | _ => false end.

(** The rejection of [TravelTool] for want of steps. *)
Definition is_step_rejection (r : ToolResult) : bool :=
  match r with ErrorResult (NotEnoughSteps _ _) => true | _ => false end.

(** [routeKey.replace(`${city}-`, '').split('_')[0]] *)
Definition destination_of (city routeKey : string) : string :=
  Js.split0 "_" (Js.replace routeKey (city +:+ "-") EmptyString).

Definition city_names (g : TravelGame) (l : list string) : option (list string) :=
  mapM (fun c => city_name <$> cities (database g) !! c) l.

Definition CheckRoutesTool_execute (g : TravelGame) : TravelGame * ToolResult :=
  let city := currentCity (state g) in
  let lines :=
    flat_map (fun p =>
      let routeKey := fst p in
      if Js.startsWith routeKey (city +:+ "-") then
        let destination := destination_of city routeKey in
        if negb (String.eqb destination EmptyString)
           && negb (String.eqb destination city)
        then [ {| line_routeKey := routeKey;
                  line_destination :=
                    match cities (database g) !! destination with
                    | Some c => if String.eqb (city_name c) EmptyString
                                then destination else city_name c
                    | None => destination
                    end;
                  line_cost := route_cost (snd p);
                  line_time := route_time (snd p);
                  line_description := route_description (snd p) |} ]
        else []
      else []) (routes (database g)) in
  match cities (database g) !! city, city_names g (visitedCities (state g)) with
  | Some c, Some names =>
      (g, SuccessResult
            (CheckRoutesData lines (city_name c) (budget (state g)) names
               (MAX_STEPS - stepCount (state g))))
  | _, _ => (g, TypeErrorThrown)
  end.

Definition TravelTool_execute (routeKey : string) (g : TravelGame)
  : TravelGame * ToolResult :=
  match route_of g routeKey with
  | None => (g, ErrorResult (RouteNotAvailable routeKey))
  | Some route =>
    let s := state g in
    if negb (Js.startsWith routeKey (currentCity s +:+ "-"))
    then (g, ErrorResult (WrongStart routeKey (currentCity s)))
    else
      let destination := destination_of (currentCity s) routeKey in
      if budget s <? route_cost route
      then (g, ErrorResult (InsufficientBudget (route_cost route) (budget s)))
      else if MAX_STEPS <? stepCount s + route_time route
      then (g, ErrorResult
                 (NotEnoughSteps (route_time route) (MAX_STEPS - stepCount s)))
      else
        let s1 := {| currentCity := destination;
                     budget := budget s - route_cost route;
                     visitedCities := visitedCities s;
                     totalSpent := totalSpent s + route_cost route;
                     score := score s;
                     stepCount := stepCount s + route_time route;
                     completed := completed s |} in
        let visit (s2 : GameState) : TravelGame * ToolResult :=
          let g2 := {| state := s2; database := database g |} in
          match cities (database g) !! destination with
          | None => (g2, TypeErrorThrown)
          | Some c =>
              (g2, SuccessResult
                     (TravelData (city_name c) (route_cost route) (route_time route)
                        (if Js.includes (visitedCities s2) destination
                         then 0 else city_value c)
                        (budget s2) (MAX_STEPS - stepCount s2)
                        (length (visitedCities s2))))
          end in
        if negb (Js.includes (visitedCities s1) destination) then
          let s2 := {| currentCity := currentCity s1; budget := budget s1;
                       visitedCities := visitedCities s1 ++ [destination];
                       totalSpent := totalSpent s1; score := score s1;
                       stepCount := stepCount s1; completed := completed s1 |} in
          match cities (database g) !! destination with
          | None => ({| state := s2; database := database g |}, TypeErrorThrown)
          | Some c =>
              visit {| currentCity := currentCity s2; budget := budget s2;
                       visitedCities := visitedCities s2;
                       totalSpent := totalSpent s2;
                       score := score s2 + city_value c;
                       stepCount := stepCount s2; completed := completed s2 |}
          end
        else visit s1
  end.

Definition PlanRouteTool_execute (g : TravelGame) : TravelGame * ToolResult :=
  let remainingCities :=
    filter (fun city => negb (Js.includes (visitedCities (state g)) city))
      requiredCities in
  match city_names g remainingCities,
        cities (database g) !! currentCity (state g) with
  | Some names, Some c => (g, SuccessResult (PlanRouteData (city_name c) names))
  | _, _ => (g, TypeErrorThrown)
  end.

(** The tools of [travelGame]. *)
Inductive Action :=
| checkRoutes
| travel (routeKey : string)
| planRoute.

Definition execute (a : Action) (g : TravelGame) : TravelGame * ToolResult :=
  match a with
  | checkRoutes => CheckRoutesTool_execute g
  | travel routeKey => TravelTool_execute routeKey g
  | planRoute => PlanRouteTool_execute g
  end.

Definition run (l : list Action) (g : TravelGame) : TravelGame :=
  fold_left (fun g a => fst (execute a g)) l g.

Inductive reachable : TravelGame -> Prop :=
| reachable_init : reachable init
| reachable_execute a g : reachable g -> reachable (fst (execute a g)).

(** *** Definitions used by the properties: the states of a playthrough,
    enumerated

    Every route leads away from its start for good, so a playthrough makes
    at most four journeys, and the states it can be in are finitely many. *)

#[local] Instance GameState_eq_dec : EqDecision GameState.
Proof. solve_decision. Defined.

Definition with_state (s : GameState) : TravelGame :=
  {| state := s; database := init_database |}.

Definition journey (routeKey : string) (s : GameState) : TravelGame * ToolResult :=
  TravelTool_execute routeKey (with_state s).

Fixpoint explore (fuel : nat) (s : GameState) : list GameState :=
  s :: match fuel with
       | O => []
       | S n =>
           flat_map (fun k =>
                       if is_success (snd (journey k s))
                       then explore n (state (fst (journey k s)))
                       else [])
             (map fst init_routes)
       end.

Definition states : list GameState := explore 5 init_state.

Definition known (s : GameState) : bool :=
  existsb (fun s' => bool_decide (s' = s)) states.

(** A journey from [s] stays within [states], is not rejected for want of
    steps, and throws nothing. *)
Definition journey_ok (s : GameState) (k : string) : bool :=
  known (state (fst (journey k s)))
  && negb (is_step_rejection (snd (journey k s)))
  && match snd (journey k s) with TypeErrorThrown => false | _ => true end.

Definition states_closed : bool :=
  forallb (fun s => forallb (journey_ok s) (map fst init_routes)) states.

(** Every visited city of [s] is in the table of cities. *)
Definition visited_known (s : GameState) : bool :=
  forallb (fun c => bool_decide (is_Some (init_cities !! c))) (visitedCities s).

Record inv (g : TravelGame) : Prop := {
  inv_database : database g = init_database;
  inv_state : In (state g) states
}.

(** [database.cities[city].value], for a city of the table. *)
Definition value_of (g : TravelGame) (city : string) : Z :=
  match cities (database g) !! city with
  | Some c => city_value c
  | None => 0
  end.

(** The sum of the values of the visited cities. *)
Definition visited_value (g : TravelGame) : Z :=
  fold_right Z.add 0 (map (value_of g) (visitedCities (state g))).

(** A game object set by hand in which every city is visited. No playthrough
    reaches it: Paris and Rio are both entered from New York only, and no
    route leads back there. *)
Definition toured : TravelGame :=
  with_state
    {| currentCity := "capetown"; budget := 250;
       visitedCities := ["newyork"; "paris"; "tokyo"; "sydney"; "rio"; "capetown"];
       totalSpent := 1750; score := 710; stepCount := 8; completed := false |}.

End Travel.

(** [game.state.stepCount = n] in the decoder game. *)
Definition set_steps (n : Z) (g : Decoder.DecoderGame) : Decoder.DecoderGame :=
  Decoder.upd_state (Decoder.set_stepCount n) g.

(** * Properties *)

Module JsFacts.

Import Js.

Lemma includes_In l x : includes l x = true <-> In x l.
Proof.
  unfold includes. rewrite existsb_exists. split.
  - intros [y [Hy Heq]]. apply String.eqb_eq in Heq. now subst.
  - intros H. exists x. split; [assumption | apply String.eqb_refl].
Qed.

Lemma includes_app l1 l2 x :
  includes (l1 ++ l2) x = includes l1 x || includes l2 x.
Proof. unfold includes. apply existsb_app. Qed.

Lemma includes_app_l l1 l2 x :
  includes l1 x = true -> includes (l1 ++ l2) x = true.
Proof. rewrite includes_app. intros ->. reflexivity. Qed.

Lemma find_app_Some {A} (p : A -> bool) l1 l2 x :
  find p l1 = Some x -> find p (l1 ++ l2) = Some x.
Proof.
  unfold find. induction l1 as [|y l1 IH]; simpl; [discriminate|].
  destruct (p y); auto.
Qed.

End JsFacts.

Module DecoderFacts.

Import Decoder.

(** *** Proof support *)

(** Splits a tool call along the branches of its source. *)
Ltac tool_cases :=
  cbv zeta; repeat case_match; simpl in *; try done.

Ltac unfold_tools :=
  unfold execute, ExploreConnectionsTool_execute, MoveToAreaTool_execute,
    CollectArtifactTool_execute, AnalyzeClueTool_execute,
    DecodeSignalTool_execute, PlanOptimalRouteTool_execute,
    UseEnergyCrystalTool_execute, FinalizeDiscoveryTool_execute in *.

Lemma run_app l1 l2 g : run (l1 ++ l2) g = run l2 (run l1 g).
Proof. unfold run. apply fold_left_app. Qed.

Lemma run_cons a l g : run (a :: l) g = run l (fst (execute a g)).
Proof. reflexivity. Qed.

Lemma reachable_run l g : reachable g -> reachable (run l g).
Proof.
  revert g. induction l as [|a l IH]; intros g Hg; [exact Hg|].
  rewrite run_cons. apply IH. now constructor.
Qed.

Lemma reachable_is_run g : reachable g <-> exists l, g = run l init.
Proof.
  split.
  - induction 1 as [|a g _ [l ->]].
    + now exists [].
    + exists (l ++ [a]). now rewrite run_app.
  - intros [l ->]. apply reachable_run. constructor.
Qed.

(** *** What holds in every state of a playthrough *)

Lemma riskCosts_pos r : 0 < riskCosts r.
Proof. destruct r; simpl; lia. Qed.

Lemma analyzeCost_range g a : 0 <= analyzeCost g a <= 1.
Proof. unfold analyzeCost. case_match; lia. Qed.

Lemma decodeCost_range g : 1 <= decodeCost g <= 2.
Proof. unfold decodeCost. case_match; lia. Qed.

Lemma wf_init : wf init.
Proof.
  split; simpl; try reflexivity; try lia.
  destruct (init_area !! "landing_zone") eqn:E; [eauto|].
  vm_compute in E. discriminate.
Qed.

Lemma wf_execute a g : wf g -> wf (fst (execute a g)).
Proof.
  intros [Hsig Hpos Hen Hhyp].
  destruct a; unfold_tools; tool_cases;
    split; simpl; try assumption; try lia;
    try (rewrite lookup_insert_eq; eauto; fail);
    try (eexists; eassumption).
Qed.

Lemma reachable_wf g : reachable g -> wf g.
Proof. induction 1; [apply wf_init | now apply wf_execute]. Qed.

(** *** Energy is checked before anything is changed *)

(** C2. In every state of a playthrough the energy pool is non-negative, and
    a move, collection, analysis or decoding whose cost exceeds the pool
    returns an error result and leaves the whole game object as it was. *)
Theorem energy_guard (g : DecoderGame) :
  reachable g ->
  0 <= energy (state g) /\
  forall (a : Action) (c : Z),
    actionCost a g = Some c ->
    energy (state g) < c ->
    is_error (snd (execute a g)) = true /\
    fst (execute a g) = g.
Proof.
  intros Hr.
  destruct (reachable_wf g Hr) as [_ [cur Hpos] Hen _].
  split; [exact Hen|]. intros a c Hc Hlt.
  destruct a; simpl in Hc; try discriminate; unfold_tools.
  - destruct (area (database g) !! name) as [t|] eqn:Ht; [|discriminate].
    injection Hc as <-. rewrite Hpos.
    destruct (negb _); [now split|].
    apply Z.ltb_lt in Hlt. rewrite Hlt. now split.
  - injection Hc as <-. apply Z.ltb_lt in Hlt. cbv zeta. rewrite Hlt. now split.
  - rewrite Hpos in Hc |- *. injection Hc as <-.
    apply Z.ltb_lt in Hlt. cbv zeta. rewrite Hlt. now split.
  - injection Hc as <-. apply Z.ltb_lt in Hlt. cbv zeta. rewrite Hlt. now split.
Qed.

Lemma energy_guard_witness :
  let g := run drain init in
  0 <= energy (state g) /\
  is_error (snd (execute (collectArtifact "signal_scanner") g)) = true /\
  fst (execute (collectArtifact "signal_scanner") g) = g.
Proof.
  intros g.
  destruct (energy_guard g (reachable_run _ _ reachable_init)) as [H0 H].
  split; [exact H0|].
  apply (H (collectArtifact "signal_scanner") 1).
  - reflexivity.
  - vm_compute. reflexivity.
Defined.

(** *** Finalization *)

(** C3. Finalizing succeeds exactly at [signal_source] with three or more
    decoded pairs. A failed attempt returns an error and changes nothing but
    the step counter, which it increments; a successful one sets the
    completed flag; and no action of the game clears the flag afterwards. *)
Theorem finalize_guarded (g : DecoderGame) (h : string) :
  let g' := fst (execute (finalizeDiscovery h) g) in
  let r := snd (execute (finalizeDiscovery h) g) in
  (is_success r = true <->
     position (state g) = "signal_source" /\
     (3 <= length (decodedSignals (state g)))%nat) /\
  (is_success r = false ->
     is_error r = true /\ g' = upd_state incr_stepCount g /\
     completed (state g') = completed (state g) /\
     stepCount (state g') = stepCount (state g) + 1) /\
  (is_success r = true -> completed (state g') = true) /\
  (forall l, completed (state g') = true -> completed (state (run l g')) = true).
Proof.
  assert (Hkeep : forall a g0, completed (state g0) = true ->
                               completed (state (fst (execute a g0))) = true).
  { intros a g0 H. destruct a; unfold_tools; tool_cases. }
  assert (Hrun : forall l g0, completed (state g0) = true ->
                              completed (state (run l g0)) = true).
  { induction l as [|a l IH]; intros g0 H; [exact H|].
    rewrite run_cons. apply IH, Hkeep, H. }
  cbv zeta. unfold execute, FinalizeDiscoveryTool_execute.
  cbn -[Nat.leb String.eqb].
  destruct (String.eqb_spec (position (state g)) "signal_source") as [He|He];
    [destruct (3 <=? length (decodedSignals (state g)))%nat eqn:Hn|];
    cbn -[Nat.leb String.eqb].
  - apply Nat.leb_le in Hn. repeat split; auto; discriminate.
  - apply Nat.leb_gt in Hn. repeat split; auto; try discriminate.
    intros [_ H]. lia.
  - repeat split; auto; try discriminate. intros [H _]. contradiction.
Qed.

(** *** Exploration *)

Lemma explored_put_area g k a name :
  explored (put_area k a g) name =
  if decide (k = name) then area_explored a else explored g name.
Proof.
  unfold explored, put_area. simpl. rewrite lookup_insert.
  now case_decide.
Qed.

Lemma explored_upd_state f g name : explored (upd_state f g) name = explored g name.
Proof. reflexivity. Qed.

Lemma explored_execute a g name :
  explored g name = true -> explored (fst (execute a g)) name = true.
Proof.
  intros H.
  destruct a; unfold_tools; tool_cases;
    rewrite ?explored_upd_state, ?explored_put_area, ?explored_upd_state;
    try assumption; case_decide; subst; try assumption; try reflexivity.
  unfold explored in H.
  match goal with E : area _ !! _ = Some _ |- _ => rewrite E in H end.
  exact H.
Qed.

Lemma explored_run l g name :
  explored g name = true -> explored (run l g) name = true.
Proof.
  revert g. induction l as [|a l IH]; intros g H; [exact H|].
  rewrite run_cons. apply IH, explored_execute, H.
Qed.

Lemma flags_listed_init : flags_listed init.
Proof.
  intros name. unfold explored. cbn [database init area].
  destruct (init_area !! name) as [a|] eqn:E.
  - apply elem_of_list_to_map_2 in E.
    repeat (apply elem_of_cons in E; destruct E as [E|E]);
      try (apply elem_of_nil in E; contradiction);
      injection E as -> ->; reflexivity.
  - cbn. destruct (String.eqb_spec name "landing_zone") as [->|]; [|reflexivity].
    vm_compute in E. discriminate.
Qed.

Lemma flags_listed_execute a g :
  flags_listed g -> flags_listed (fst (execute a g)).
Proof.
  intros H n. specialize (H n).
  destruct a; unfold_tools; tool_cases;
    rewrite ?explored_upd_state, ?explored_put_area, ?explored_upd_state;
    try assumption.
  - rewrite JsFacts.includes_app. unfold Js.includes at 2. cbn [existsb].
    case_decide as Hn.
    + subst. now rewrite String.eqb_refl, orb_true_r.
    + rewrite <- H. apply not_eq_sym, String.eqb_neq in Hn. rewrite Hn.
      now rewrite orb_false_r.
  - case_decide as Hn; [|assumption]. subst. rewrite <- H. unfold explored.
    match goal with E : area _ !! _ = Some _ |- _ => now rewrite E end.
Qed.

Lemma reachable_flags_listed g : reachable g -> flags_listed g.
Proof.
  induction 1; [apply flags_listed_init | now apply flags_listed_execute].
Qed.

Lemma history_snoc l a g :
  history (l ++ [a]) g =
  history l g ++ [position (state (fst (execute a (run l g))))].
Proof.
  revert g. induction l as [|b l IH]; intros g; [reflexivity|].
  cbn [app history]. rewrite IH. reflexivity.
Qed.

Lemma history_last l g : In (position (state (run l g))) (history l g).
Proof.
  revert g. induction l as [|b l IH]; intros g; [now left|].
  cbn [history]. right. rewrite run_cons. apply IH.
Qed.

(** One call flags the area it ends in, and no other. *)
Lemma explored_step a g name :
  explored g (position (state g)) = true ->
  explored (fst (execute a g)) name =
  explored g name || String.eqb name (position (state (fst (execute a g)))).
Proof.
  intros Hpos.
  assert (Hsame : explored g name || String.eqb name (position (state g))
                  = explored g name).
  { destruct (String.eqb_spec name (position (state g))) as [->|_].
    - rewrite Hpos. reflexivity.
    - apply orb_false_r. }
  destruct a; unfold_tools; tool_cases;
    rewrite ?explored_upd_state, ?explored_put_area, ?explored_upd_state;
    try (symmetry; exact Hsame).
  - case_decide as Hd.
    + subst. rewrite String.eqb_refl. now rewrite orb_true_r.
    + apply String.eqb_neq in Hd. rewrite String.eqb_sym in Hd. rewrite Hd.
      now rewrite orb_false_r.
  - destruct (String.eqb_spec name name0) as [->|_]; [|now rewrite orb_false_r].
    unfold explored.
    match goal with E : area _ !! name0 = Some _ |- _ => rewrite E end.
    match goal with E : negb _ = false |- _ =>
      apply negb_false_iff in E; rewrite E end.
    reflexivity.
  - case_decide as Hd; [|symmetry; exact Hsame]. subst.
    rewrite Hsame. unfold explored.
    match goal with E : area _ !! _ = Some _ |- _ => now rewrite E end.
Qed.

(** In a playthrough the areas flagged explored are the areas the player
    has been in. *)
Lemma explored_history l name :
  explored (run l init) name = Js.includes (history l init) name.
Proof.
  revert name. induction l as [|a l IH] using rev_ind; intros name.
  - apply flags_listed_init.
  - rewrite run_app, history_snoc, JsFacts.includes_app.
    cbn [run fold_left]. rewrite explored_step.
    + fold (run l init). rewrite IH.
      unfold Js.includes at 3. cbn [existsb]. now rewrite orb_false_r.
    + fold (run l init). rewrite IH.
      apply JsFacts.includes_In, history_last.
Qed.

Lemma move_into_explored g name :
  explored g name = true ->
  score (state (fst (execute (moveToArea name) g))) = score (state g).
Proof.
  unfold explored. intros H. unfold_tools.
  destruct (area (database g) !! name) as [t|]; [|discriminate].
  rewrite H. tool_cases.
Qed.

(** C4. A move that passes its checks deducts the risk-tier cost of the
    target, counts one step and changes the position. Into an unexplored
    area it marks the area explored and adds ten times the cost to the
    score; into an explored one it adds nothing. In a playthrough the
    explored areas are exactly the areas the player has been in, the start
    area included: the move scores its bonus when the target was never
    entered before, and only then. An explored area stays explored whatever
    is done next, and every later move into it leaves the score as it was,
    so the bonus of an area is awarded once. From the initial state the move
    to [volcanic_plains], of medium risk, leaves 28 energy and scores 20. *)
Theorem exploration_bonus_once
  (g : DecoderGame) (name : string) (currentArea targetArea : AreaInfo) :
  area (database g) !! position (state g) = Some currentArea ->
  area (database g) !! name = Some targetArea ->
  Js.includes (area_connections currentArea) name = true ->
  riskCosts (area_riskLevel targetArea) <= energy (state g) ->
  let cost := riskCosts (area_riskLevel targetArea) in
  let g' := fst (execute (moveToArea name) g) in
  (is_success (snd (execute (moveToArea name) g)) = true /\
   energy (state g') = energy (state g) - cost /\
   stepCount (state g') = stepCount (state g) + 1 /\
   position (state g') = name /\
   explored g' name = true /\
   score (state g') = score (state g) + (if explored g name then 0 else cost * 10) /\
   exploredAreas (state g') =
     exploredAreas (state g) ++ (if explored g name then [] else [name]) /\
   (forall l, explored (run l g') name = true) /\
   (reachable g ->
    explored g name = Js.includes (exploredAreas (state g)) name)) /\
  (forall l : list Action,
     g = run l init ->
     (explored g name = true <-> In name (history l init)) /\
     score (state g') =
       score (state g) +
       (if Js.includes (history l init) name then 0 else cost * 10)) /\
  (forall l : list Action,
     let g2 := run l g' in
     score (state (fst (execute (moveToArea name) g2))) = score (state g2)) /\
  (let gA := fst (execute (moveToArea "volcanic_plains") init) in
   area_riskLevel <$> area (database init) !! "volcanic_plains" = Some medium /\
   explored init "volcanic_plains" = false /\
   energy (state init) = 30 /\
   energy (state gA) = 28 /\
   score (state gA) = score (state init) + 20 /\
   explored gA "volcanic_plains" = true).
Proof.
  intros Hcur Htgt Hconn Hen cost g'.
  assert (Hbody :
    is_success (snd (execute (moveToArea name) g)) = true /\
    energy (state g') = energy (state g) - cost /\
    stepCount (state g') = stepCount (state g) + 1 /\
    position (state g') = name /\
    explored g' name = true /\
    score (state g') = score (state g) + (if explored g name then 0 else cost * 10) /\
    exploredAreas (state g') =
      exploredAreas (state g) ++ (if explored g name then [] else [name])).
  { subst g' cost. unfold explored at 2 3. rewrite Htgt.
    unfold execute, MoveToAreaTool_execute. rewrite Hcur, Htgt, Hconn.
    cbv zeta. cbn [negb].
    apply Z.ltb_ge in Hen. rewrite Hen.
    destruct (area_explored targetArea) eqn:Hex; cbn [negb fst snd is_success].
    - rewrite explored_upd_state. unfold explored. rewrite Htgt.
      simpl. rewrite app_nil_r. repeat split; auto. lia.
    - rewrite explored_upd_state, explored_put_area.
      case_decide; [|congruence]. simpl. repeat split; auto. }
  destruct Hbody as (H1 & H2 & H3 & H4 & H5 & H6 & H7).
  assert (Hlater : forall l, explored (run l g') name = true)
    by (intros l; apply explored_run, H5).
  split; [|split; [|split]].
  - repeat split; try assumption.
    intros Hr. now apply reachable_flags_listed.
  - intros l Hl. rewrite H6. rewrite Hl, explored_history.
    split; [apply JsFacts.includes_In | reflexivity].
  - intros l g2. apply move_into_explored, Hlater.
  - vm_compute; repeat split; reflexivity.
Qed.

Lemma exploration_bonus_once_witness :
  (let g' := fst (execute (moveToArea "volcanic_plains") init) in
   energy (state g') = 28 /\ score (state g') = 20 /\
   forall l, explored (run l g') "volcanic_plains" = true) /\
  (let g := run out_and_back init in
   let g' := fst (execute (moveToArea "volcanic_plains") g) in
   In "volcanic_plains" (history out_and_back init) /\
   energy (state g') = energy (state g) - 2 /\
   score (state g') = score (state g) + 0) /\
  (let g := run out_and_back init in
   let g' := fst (execute (moveToArea "crystal_forest") g) in
   ~ In "crystal_forest" (history out_and_back init) /\
   score (state g') = score (state g) + 1 * 10 /\
   forall l, score (state (fst (execute (moveToArea "crystal_forest") (run l g'))))
             = score (state (run l g'))).
Proof.
  split; [|split].
  - destruct (init_area !! "landing_zone") as [cur|] eqn:Hcur;
      [|vm_compute in Hcur; discriminate].
    destruct (init_area !! "volcanic_plains") as [tgt|] eqn:Htgt;
      [|vm_compute in Htgt; discriminate].
    assert (Hc : Js.includes (area_connections cur) "volcanic_plains" = true).
    { vm_compute in Hcur. injection Hcur as <-. reflexivity. }
    assert (He : riskCosts (area_riskLevel tgt) <= energy (state init)).
    { vm_compute in Htgt. injection Htgt as <-. vm_compute. discriminate. }
    destruct (exploration_bonus_once init "volcanic_plains" cur tgt Hcur Htgt Hc He)
      as ((_ & _ & _ & _ & _ & _ & _ & Hl & _) & _ & _ & (_ & _ & _ & HA & HB & _)).
    cbv zeta. split; [exact HA|]. split; [exact HB|]. exact Hl.
  - cbv zeta.
    destruct (area (database (run out_and_back init))
                !! position (state (run out_and_back init))) as [cur|] eqn:Hcur;
      [|vm_compute in Hcur; discriminate].
    destruct (area (database (run out_and_back init)) !! "volcanic_plains")
      as [tgt|] eqn:Htgt; [|vm_compute in Htgt; discriminate].
    assert (Hc : Js.includes (area_connections cur) "volcanic_plains" = true).
    { vm_compute in Hcur. injection Hcur as <-. reflexivity. }
    assert (He : riskCosts (area_riskLevel tgt)
                 <= energy (state (run out_and_back init))).
    { vm_compute in Htgt. injection Htgt as <-. vm_compute. discriminate. }
    destruct (exploration_bonus_once (run out_and_back init) "volcanic_plains"
                cur tgt Hcur Htgt Hc He)
      as ((_ & He' & _) & Hh & _).
    destruct (Hh out_and_back eq_refl) as [Hin Hs].
    vm_compute in Htgt. injection Htgt as <-.
    split; [apply Hin; reflexivity|]. split; [exact He' | exact Hs].
  - cbv zeta.
    destruct (area (database (run out_and_back init))
                !! position (state (run out_and_back init))) as [cur|] eqn:Hcur;
      [|vm_compute in Hcur; discriminate].
    destruct (area (database (run out_and_back init)) !! "crystal_forest")
      as [tgt|] eqn:Htgt; [|vm_compute in Htgt; discriminate].
    assert (Hc : Js.includes (area_connections cur) "crystal_forest" = true).
    { vm_compute in Hcur. injection Hcur as <-. reflexivity. }
    assert (He : riskCosts (area_riskLevel tgt)
                 <= energy (state (run out_and_back init))).
    { vm_compute in Htgt. injection Htgt as <-. vm_compute. discriminate. }
    destruct (exploration_bonus_once (run out_and_back init) "crystal_forest"
                cur tgt Hcur Htgt Hc He)
      as (_ & Hh & Hl & _).
    destruct (Hh out_and_back eq_refl) as [Hin Hs].
    vm_compute in Htgt. injection Htgt as <-.
    split; [|split; [exact Hs | exact Hl]].
    intros Hi. apply Hin in Hi. vm_compute in Hi. discriminate.
Defined.

(** *** The running score *)

Lemma reachable_at_source : reachable at_source.
Proof. apply reachable_run, reachable_init. Qed.

(** C5, refuted: finalizing at the source with three decoded pairs adds the
    500 points of the completion bonus to the running score. *)
Lemma score_changed_by_finalize : ~ score_changed_by_scoring_actions_only.
Proof.
  intros H.
  specialize (H at_source (finalizeDiscovery "omega") reachable_at_source eq_refl).
  vm_compute in H. discriminate.
Qed.

(** C5, amended. A call changes the running score only when it succeeds and
    is a move into an unexplored area (ten times the cost of entry), a
    collection (the value of the artifact), an analysis (30), a decoding
    (the value of the recipe) or the finalization (the completion bonus of
    500). Every other call leaves the score as it was: a rejected call, a
    call of another tool, and a move into an explored area. *)
Theorem score_changed_by_scoring_or_finalize (g : DecoderGame) (a : Action) :
  let g' := fst (execute a g) in
  let r := snd (execute a g) in
  (score (state g') = score (state g) \/
   (is_success r = true /\
    ((exists name t,
        a = moveToArea name /\ area (database g) !! name = Some t /\
        explored g name = false /\
        score (state g') = score (state g) + riskCosts (area_riskLevel t) * 10) \/
     (exists name d,
        a = collectArtifact name /\ artifact (database g) !! name = Some d /\
        score (state g') = score (state g) + artifact_value d) \/
     (exists input,
        a = analyzeClue input /\ score (state g') = score (state g) + 30) \/
     (exists s1 s2 c1 c2 recipe,
        a = decodeSignal s1 s2 /\
        findClue g s1 = Some c1 /\ findClue g s2 = Some c2 /\
        lookupRecipe g c1 c2 = Some recipe /\
        score (state g') = score (state g) + recipe_value recipe) \/
     (exists h,
        a = finalizeDiscovery h /\ score (state g') = score (state g) + 500)))) /\
  (is_success r = false -> score (state g') = score (state g)) /\
  (forall name, a = moveToArea name -> explored g name = true ->
                score (state g') = score (state g)).
Proof.
  cbv zeta. split; [|split].
  - destruct a; unfold_tools.
    + tool_cases; auto.
    + destruct (area (database g) !! name) as [t|] eqn:Ht; [|now left].
      tool_cases; auto.
      right. split; [reflexivity|]. left. exists name, t.
      unfold explored. rewrite Ht.
      match goal with E : negb _ = true |- _ => apply negb_true_iff in E end.
      auto.
    + tool_cases; auto.
      right. split; [reflexivity|]. right. left.
      match goal with E : artifact _ !! name = Some ?d |- _ => exists name, d end.
      auto.
    + tool_cases; auto.
      right. split; [reflexivity|]. do 2 right. left. exists input. auto.
    + destruct (findClue g signal1) as [c1|] eqn:E1;
        destruct (findClue g signal2) as [c2|] eqn:E2; tool_cases; auto.
      right. split; [reflexivity|]. do 3 right. left.
      match goal with E : lookupRecipe g c1 c2 = Some ?rc |- _ =>
        exists signal1, signal2, c1, c2, rc end.
      auto 6.
    + tool_cases; auto.
    + tool_cases; auto.
    + tool_cases; auto.
      right. split; [reflexivity|]. do 4 right. exists finalHypothesis. auto.
  - destruct a; unfold_tools; tool_cases.
  - intros name -> He. now apply move_into_explored.
Qed.

Lemma score_changed_by_scoring_or_finalize_witness :
  (let g := run out_and_back init in
   score (state (fst (execute (moveToArea "volcanic_plains") g))) = score (state g)) /\
  (let g := run out_and_back init in
   score (state (fst (execute (moveToArea "crystal_forest") g))) = score (state g) + 10) /\
  score (state (fst (execute (finalizeDiscovery "omega") at_source)))
  = score (state at_source) + 500.
Proof.
  split; [|split]; cbv zeta.
  - destruct (score_changed_by_scoring_or_finalize (run out_and_back init)
                (moveToArea "volcanic_plains")) as (_ & _ & H).
    apply (H "volcanic_plains"); reflexivity.
  - destruct (score_changed_by_scoring_or_finalize (run out_and_back init)
                (moveToArea "crystal_forest")) as ([H|[_ H]] & _ & _).
    + vm_compute in H. discriminate.
    + destruct H as [(n & t & Ha & Ht & _ & Hs)|[H|[H|[H|H]]]].
      * injection Ha as <-. vm_compute in Ht. injection Ht as <-. exact Hs.
      * destruct H as (? & ? & Ha & _). discriminate.
      * destruct H as (? & Ha & _). discriminate.
      * destruct H as (? & ? & ? & ? & ? & Ha & _). discriminate.
      * destruct H as (? & Ha & _). discriminate.
  - destruct (score_changed_by_scoring_or_finalize at_source
                (finalizeDiscovery "omega")) as ([H|[_ H]] & _ & _).
    + vm_compute in H. discriminate.
    + destruct H as [(n & t & Ha & _)|[H|[H|[H|H]]]].
      * discriminate.
      * destruct H as (? & ? & Ha & _). discriminate.
      * destruct H as (? & Ha & _). discriminate.
      * destruct H as (? & ? & ? & ? & ? & Ha & _). discriminate.
      * destruct H as (? & _ & Hs). exact Hs.
Defined.

(** *** Cost modifiers *)

(** C7. A successful decoding deducts 1 energy when [signal_scanner] is in
    the inventory at the call and 2 otherwise; a successful analysis deducts
    0 when [vibration_analyzer] is in the inventory and a signal of the
    current area contains [harmonic] or [Gamma], and 1 otherwise. Both costs
    are functions of the game object of the call. *)
Theorem cost_modifiers (g : DecoderGame) (a : Action) :
  is_success (snd (execute a g)) = true ->
  let g' := fst (execute a g) in
  match a with
  | decodeSignal _ _ =>
      energy (state g') =
      energy (state g) -
      (if Js.includes (artifacts (state g)) "signal_scanner" then 1 else 2)
  | analyzeClue _ =>
      exists currentArea,
        area (database g) !! position (state g) = Some currentArea /\
        energy (state g') =
        energy (state g) -
        (if Js.includes (artifacts (state g)) "vibration_analyzer" &&
            existsb (fun s => Js.str_includes s "harmonic" || Js.str_includes s "Gamma")
              (area_signals currentArea)
         then 0 else 1)
  | _ => True
  end.
Proof.
  intros Hs. cbv zeta. destruct a; try exact I; unfold_tools.
  - destruct (area (database g) !! position (state g)) as [cur|] eqn:Hcur;
      [|discriminate].
    exists cur. split; [reflexivity|].
    revert Hs. unfold analyzeCost, isHarmonicArea. tool_cases.
  - revert Hs. unfold decodeCost. tool_cases.
Qed.

Lemma cost_modifiers_witness :
  (let g := run scanner_route init in
   energy (state (fst (execute (decodeSignal "basic_frequency" "harmonic_sequence") g)))
   = energy (state g) - 1) /\
  (let g := run bare_route init in
   energy (state (fst (execute (decodeSignal "basic_frequency" "harmonic_sequence") g)))
   = energy (state g) - 2) /\
  (let g := run analyzer_route init in
   energy (state (fst (execute (analyzeClue "harmonic_sequence") g)))
   = energy (state g) - 0) /\
  (let g := run (analyzer_route ++ [moveToArea "landing_zone"]) init in
   energy (state (fst (execute (analyzeClue "basic_frequency") g)))
   = energy (state g) - 1).
Proof.
  split; [|split; [|split]]; cbv zeta.
  - exact (cost_modifiers (run scanner_route init)
             (decodeSignal "basic_frequency" "harmonic_sequence") eq_refl).
  - exact (cost_modifiers (run bare_route init)
             (decodeSignal "basic_frequency" "harmonic_sequence") eq_refl).
  - destruct (cost_modifiers (run analyzer_route init)
                (analyzeClue "harmonic_sequence") eq_refl) as [cur [Hc He]].
    vm_compute in Hc. injection Hc as <-. exact He.
  - destruct (cost_modifiers (run (analyzer_route ++ [moveToArea "landing_zone"]) init)
                (analyzeClue "basic_frequency") eq_refl) as [cur [Hc He]].
    vm_compute in Hc. injection Hc as <-. exact He.
Defined.

(** *** Hypotheses *)

Lemma hypotheses_execute a g :
  hypotheses (state (fst (execute a g))) = hypotheses (state g).
Proof. destruct a; unfold_tools; tool_cases. Qed.

(** C9. In every state of a playthrough the list of hypotheses is empty: no
    tool writes it, and finalizing does not store its argument; the final
    score is therefore the running score with the energy and efficiency
    bonuses, the reflection term being 0. *)
Theorem hypotheses_stay_empty (g : DecoderGame) :
  reachable g ->
  hypotheses (state g) = [] /\
  (forall a, hypotheses (state (fst (execute a g))) = []) /\
  Z.of_nat (length (hypotheses (state g))) * 50 = 0 /\
  getFinalScore g =
  score (state g) + energy (state g) * 10 + efficiencyBonus (state g).
Proof.
  intros Hr. pose proof (wf_hypotheses g (reachable_wf g Hr)) as Hh.
  split; [exact Hh|]. split; [|split].
  - intros a. now rewrite hypotheses_execute.
  - now rewrite Hh.
  - unfold getFinalScore. rewrite Hh. simpl. lia.
Qed.

Lemma hypotheses_stay_empty_witness :
  hypotheses (state (fst (execute (finalizeDiscovery "omega") at_source))) = [] /\
  getFinalScore at_source = 590 + 9 * 10 + 0.
Proof.
  destruct (hypotheses_stay_empty at_source reachable_at_source)
    as (_ & Ha & _ & Hf).
  split; [exact (Ha (finalizeDiscovery "omega"))|].
  rewrite Hf. vm_compute. reflexivity.
Defined.

(** *** The completed flag is written, never read *)

Lemma flag_not_read a b g :
  snd (execute a (set_flag b g)) = snd (execute a g) /\
  forall c, set_flag c (fst (execute a (set_flag b g))) =
            set_flag c (fst (execute a g)).
Proof.
  destruct g as [s db]. destruct s.
  split; [|intros c]; destruct a; unfold_tools;
    unfold set_flag, upd_state, analyzeCost, decodeCost, findClue, lookupRecipe;
    cbn; repeat case_match; simplify_eq; reflexivity.
Qed.

(** C10. No tool reads the completed flag: a call returns the same result,
    and leaves the same game object up to the flag, whatever the flag was.
    After a successful finalization a second one succeeds again, counts one
    more step and adds another 500 to the running score. *)
Theorem finalize_again (g : DecoderGame) (h1 h2 : string) :
  is_success (snd (execute (finalizeDiscovery h1) g)) = true ->
  let g1 := fst (execute (finalizeDiscovery h1) g) in
  let g2 := fst (execute (finalizeDiscovery h2) g1) in
  completed (state g1) = true /\
  is_success (snd (execute (finalizeDiscovery h2) g1)) = true /\
  stepCount (state g2) = stepCount (state g1) + 1 /\
  score (state g2) = score (state g1) + 500 /\
  (forall (a : Action) (b : bool) (g0 : DecoderGame),
     snd (execute a (set_flag b g0)) = snd (execute a g0) /\
     forall c, set_flag c (fst (execute a (set_flag b g0))) =
               set_flag c (fst (execute a g0))).
Proof.
  intros Hs. cbv zeta.
  assert (Hok : String.eqb (position (state g)) "signal_source" = true /\
                (3 <=? length (decodedSignals (state g)))%nat = true).
  { revert Hs. unfold execute, FinalizeDiscoveryTool_execute.
    cbn -[Nat.leb String.eqb].
    destruct (String.eqb (position (state g)) "signal_source");
      [|discriminate].
    destruct (3 <=? length (decodedSignals (state g)))%nat;
      [split; reflexivity | discriminate]. }
  destruct Hok as [Hp Hn].
  assert (Hfin : forall h g0,
            String.eqb (position (state g0)) "signal_source" = true ->
            (3 <=? length (decodedSignals (state g0)))%nat = true ->
            is_success (snd (execute (finalizeDiscovery h) g0)) = true /\
            fst (execute (finalizeDiscovery h) g0) =
            upd_state (fun s =>
              set_bonusesEarned (bonusesEarned s ++ ["omega_revelation"])
                (set_score (score s + 500) (set_completed true s)))
              (upd_state incr_stepCount g0)).
  { intros h g0 Hp0 Hn0. unfold execute, FinalizeDiscoveryTool_execute.
    cbn -[Nat.leb String.eqb]. rewrite Hp0, Hn0. split; reflexivity. }
  destruct (Hfin h1 g Hp Hn) as [_ E1]. rewrite E1.
  match goal with |- context [execute (finalizeDiscovery h2) ?g1] =>
    destruct (Hfin h2 g1 Hp Hn) as [S2 E2] end.
  rewrite E2.
  split; [reflexivity|]. split; [exact S2|].
  split; [reflexivity|]. split; [reflexivity|].
  intros. apply flag_not_read.
Qed.

Lemma finalize_again_witness :
  let g1 := fst (execute (finalizeDiscovery "omega") at_source) in
  let g2 := fst (execute (finalizeDiscovery "again") g1) in
  completed (state g1) = true /\
  is_success (snd (execute (finalizeDiscovery "again") g1)) = true /\
  stepCount (state g2) = stepCount (state g1) + 1 /\
  score (state g2) = score (state g1) + 500.
Proof.
  destruct (finalize_again at_source "omega" "again" eq_refl)
    as (H1 & H2 & H3 & H4 & _).
  cbv zeta. auto.
Defined.

(** *** Decoding a pair *)

Lemma plus_splits_complete (x y : string) :
  In (x, y) (plus_splits (x +:+ "+" +:+ y)).
Proof.
  induction x as [|c x IH]; simpl.
  - now left.
  - apply in_or_app. right.
    change (String c x, y) with ((fun p => (String c (fst p), snd p)) (x, y)).
    apply in_map, IH.
Qed.

(** No recipe of the table is also listed under the reversed key. *)
Lemma recipe_key_one_order (x y : string) (r : Recipe) :
  init_signal !! (x +:+ "+" +:+ y) = Some r ->
  init_signal !! (y +:+ "+" +:+ x) = None.
Proof.
  intros H. apply elem_of_list_to_map_2 in H.
  pose proof (plus_splits_complete x y) as Hin.
  repeat (apply elem_of_cons in H; destruct H as [H|H]);
    try (apply elem_of_nil in H; contradiction);
    injection H as Hk _; rewrite Hk in Hin; vm_compute in Hin;
    destruct Hin as [Hin|[]]; injection Hin as <- <-;
    vm_compute; reflexivity.
Qed.

Lemma lookupRecipe_comm g c1 c2 :
  signal (database g) = init_signal ->
  lookupRecipe g c1 c2 = lookupRecipe g c2 c1.
Proof.
  intros Hs. unfold lookupRecipe. rewrite Hs. cbv zeta.
  destruct (init_signal !! (signalName c1 +:+ "+" +:+ signalName c2)) as [r|] eqn:E1.
  - rewrite (recipe_key_one_order _ _ _ E1). reflexivity.
  - now destruct (init_signal !! (signalName c2 +:+ "+" +:+ signalName c1)).
Qed.

Lemma signal_execute a g :
  signal (database (fst (execute a g))) = signal (database g).
Proof. destruct a; unfold_tools; tool_cases. Qed.

Lemma signal_run l g : signal (database (run l g)) = signal (database g).
Proof.
  revert g. induction l as [|a l IH]; intros g; [reflexivity|].
  rewrite run_cons, IH. apply signal_execute.
Qed.

Lemma decodedSignals_execute a g k :
  Js.includes (decodedSignals (state g)) k = true ->
  Js.includes (decodedSignals (state (fst (execute a g)))) k = true.
Proof.
  intros H. destruct a; unfold_tools; tool_cases.
  now apply JsFacts.includes_app_l.
Qed.

Lemma decodedSignals_run l g k :
  Js.includes (decodedSignals (state g)) k = true ->
  Js.includes (decodedSignals (state (run l g))) k = true.
Proof.
  revert g. induction l as [|a l IH]; intros g H; [exact H|].
  rewrite run_cons. apply IH, decodedSignals_execute, H.
Qed.

Lemma gatheredClues_execute a g :
  exists more, gatheredClues (state (fst (execute a g))) =
               gatheredClues (state g) ++ more.
Proof.
  destruct a; unfold_tools; tool_cases;
    try (exists []; now rewrite app_nil_r); eauto.
Qed.

Lemma gatheredClues_run l g :
  exists more, gatheredClues (state (run l g)) = gatheredClues (state g) ++ more.
Proof.
  revert g. induction l as [|a l IH]; intros g.
  - exists []. now rewrite app_nil_r.
  - rewrite run_cons. destruct (IH (fst (execute a g))) as [m1 ->].
    destruct (gatheredClues_execute a g) as [m2 ->].
    exists (m2 ++ m1). now rewrite <- app_assoc.
Qed.

Lemma findClue_run l g input c :
  findClue g input = Some c -> findClue (run l g) input = Some c.
Proof.
  unfold findClue. intros H. destruct (gatheredClues_run l g) as [m ->].
  now apply JsFacts.find_app_Some.
Qed.

Lemma lookupRecipe_database g g' x y :
  signal (database g') = signal (database g) ->
  lookupRecipe g' x y = lookupRecipe g x y.
Proof. unfold lookupRecipe. now intros ->. Qed.

Lemma decode_result_comm g a b :
  signal (database g) = init_signal ->
  snd (execute (decodeSignal a b) g) = snd (execute (decodeSignal b a) g).
Proof.
  intros Hs. unfold execute, DecodeSignalTool_execute. cbv zeta.
  destruct (energy (state g) <? decodeCost g); [reflexivity|].
  destruct (findClue g a) as [c1|], (findClue g b) as [c2|]; try reflexivity.
  rewrite (orb_comm (negb (Js.truthy (Some c2)))), (lookupRecipe_comm g c2 c1 Hs),
    (orb_comm (Js.includes _ (c2 +:+ "+" +:+ c1))).
  destruct (negb _ || negb _); [reflexivity|].
  destruct (lookupRecipe g c1 c2); [|reflexivity].
  now destruct (_ || _).
Qed.

(** What a successful decoding of the clues [c1] and [c2] establishes. *)
Lemma decode_success g a b c1 c2 :
  findClue g a = Some c1 -> findClue g b = Some c2 ->
  is_success (snd (execute (decodeSignal a b) g)) = true ->
  Js.truthy (Some c1) = true /\ Js.truthy (Some c2) = true /\
  (exists r, lookupRecipe g c1 c2 = Some r) /\
  Js.includes (decodedSignals (state (fst (execute (decodeSignal a b) g))))
    (c1 +:+ "+" +:+ c2) = true.
Proof.
  intros H1 H2. unfold execute, DecodeSignalTool_execute. cbv zeta.
  rewrite H1, H2.
  destruct (energy (state g) <? decodeCost g); [discriminate|].
  destruct (Js.truthy (Some c1)); [|discriminate].
  destruct (Js.truthy (Some c2)); [|discriminate].
  cbn [negb orb].
  destruct (lookupRecipe g c1 c2) as [r|]; [|discriminate].
  destruct (_ || _); [discriminate|]. intros _.
  repeat split; eauto.
  cbn -[Js.includes]. rewrite JsFacts.includes_app.
  unfold Js.includes at 2. cbn [existsb].
  rewrite String.eqb_refl. now rewrite orb_true_r.
Qed.

(** Decoding two resolved clues whose key is recorded, in either order. *)
Lemma decode_recorded g a b x y r :
  findClue g a = Some x -> findClue g b = Some y ->
  Js.truthy (Some x) = true -> Js.truthy (Some y) = true ->
  lookupRecipe g x y = Some r ->
  Js.includes (decodedSignals (state g)) (x +:+ "+" +:+ y)
  || Js.includes (decodedSignals (state g)) (y +:+ "+" +:+ x) = true ->
  execute (decodeSignal a b) g =
  (g, ErrorResult (if energy (state g) <? decodeCost g
                   then InsufficientEnergy (decodeCost g) (energy (state g))
                   else AlreadyDecoded)).
Proof.
  intros H1 H2 T1 T2 Hr Hin. unfold execute, DecodeSignalTool_execute. cbv zeta.
  destruct (energy (state g) <? decodeCost g); [reflexivity|].
  rewrite H1, H2, T1, T2, Hr, Hin. reflexivity.
Qed.

(** C1, refuted: with one unit of energy left, the second attempt on a
    decoded pair is rejected for insufficient energy, the check that comes
    first in the tool. *)
Lemma decoded_pair_reported_out_of_energy : ~ decoded_pair_always_reported_decoded.
Proof.
  intros H.
  set (g := run bare_route init).
  set (c1 := "basic_frequency: Alpha waves detected - pattern repeats every 3 units").
  set (c2 := "harmonic_sequence: Gamma harmonics - builds on alpha, multiplies by 1.5").
  set (g2 := run walk_to_one
               (fst (execute (decodeSignal "basic_frequency" "harmonic_sequence") g))).
  assert (E1 : findClue g "basic_frequency" = Some c1) by (vm_compute; reflexivity).
  assert (E2 : findClue g "harmonic_sequence" = Some c2) by (vm_compute; reflexivity).
  assert (S : is_success
                (snd (execute (decodeSignal "basic_frequency" "harmonic_sequence") g))
              = true) by (vm_compute; reflexivity).
  assert (P : same_pair g2 "harmonic_sequence" "basic_frequency" c1 c2)
    by (right; split; vm_compute; reflexivity).
  assert (X : snd (execute (decodeSignal "harmonic_sequence" "basic_frequency") g2)
              = ErrorResult (InsufficientEnergy 2 1)) by (vm_compute; reflexivity).
  destruct (H g "basic_frequency" "harmonic_sequence" c1 c2
              (reachable_run _ _ reachable_init) E1 E2) as [_ H2].
  specialize (H2 S walk_to_one "harmonic_sequence" "basic_frequency" P).
  apply (f_equal snd) in H2. fold g2 in H2. rewrite X in H2. discriminate.
Qed.

(** C1, amended. In every state of a playthrough the recipe lookup is
    symmetric in the two resolved clues, and the two orders of a decoding
    return the same result. Once a pair is decoded, its names keep resolving
    to the same clues, and every later attempt on the pair, in either order,
    is rejected and leaves the game object as it was: as already decoded
    when the energy covers the cost of decoding, for insufficient energy
    otherwise. *)
Theorem decode_once (g : DecoderGame) (a b c1 c2 : string) :
  reachable g -> findClue g a = Some c1 -> findClue g b = Some c2 ->
  (lookupRecipe g c1 c2 = lookupRecipe g c2 c1 /\
   snd (execute (decodeSignal a b) g) = snd (execute (decodeSignal b a) g)) /\
  (is_success (snd (execute (decodeSignal a b) g)) = true ->
   forall (l : list Action) (a' b' : string),
     let g2 := run l (fst (execute (decodeSignal a b) g)) in
     same_pair g2 a b c1 c2 /\
     (same_pair g2 a' b' c1 c2 ->
      execute (decodeSignal a' b') g2 =
      (g2, ErrorResult (if energy (state g2) <? decodeCost g2
                        then InsufficientEnergy (decodeCost g2) (energy (state g2))
                        else AlreadyDecoded)))).
Proof.
  intros Hr H1 H2.
  pose proof (wf_signal g (reachable_wf g Hr)) as Hsig.
  split; [split; [now apply lookupRecipe_comm | now apply decode_result_comm]|].
  intros Hs l a' b' g2.
  destruct (decode_success g a b c1 c2 H1 H2 Hs) as (T1 & T2 & [r Hrec] & Hkey).
  assert (Hsig2 : signal (database g2) = signal (database g)).
  { subst g2. now rewrite signal_run, signal_execute. }
  assert (Hrec2 : lookupRecipe g2 c1 c2 = Some r).
  { now rewrite (lookupRecipe_database g g2). }
  assert (Hkey2 : Js.includes (decodedSignals (state g2)) (c1 +:+ "+" +:+ c2) = true).
  { subst g2. now apply decodedSignals_run. }
  split.
  - left. subst g2.
    change (run l (fst (execute (decodeSignal a b) g)))
      with (run (decodeSignal a b :: l) g).
    split; now apply findClue_run.
  - intros [[Ha Hb]|[Ha Hb]].
    + apply (decode_recorded g2 a' b' c1 c2 r); auto.
      now rewrite Hkey2.
    + apply (decode_recorded g2 a' b' c2 c1 r); auto.
      * rewrite <- Hrec2. apply lookupRecipe_comm. congruence.
      * rewrite Hkey2. apply orb_true_r.
Qed.

Lemma decode_once_witness :
  let g := run bare_route init in
  let g1 := fst (execute (decodeSignal "basic_frequency" "harmonic_sequence") g) in
  snd (execute (decodeSignal "basic_frequency" "harmonic_sequence") g) =
  snd (execute (decodeSignal "harmonic_sequence" "basic_frequency") g) /\
  execute (decodeSignal "harmonic_sequence" "basic_frequency") g1 =
  (g1, ErrorResult AlreadyDecoded) /\
  execute (decodeSignal "harmonic_sequence" "basic_frequency") (run walk_to_one g1) =
  (run walk_to_one g1, ErrorResult (InsufficientEnergy 2 1)).
Proof.
  intros g g1.
  destruct (decode_once g "basic_frequency" "harmonic_sequence"
              "basic_frequency: Alpha waves detected - pattern repeats every 3 units"
              "harmonic_sequence: Gamma harmonics - builds on alpha, multiplies by 1.5"
              (reachable_run _ _ reachable_init) eq_refl eq_refl) as [[_ Hc] Hl].
  split; [exact Hc|]. split.
  - destruct (Hl eq_refl [] "harmonic_sequence" "basic_frequency") as [_ H].
    exact (H (or_intror (conj eq_refl eq_refl))).
  - destruct (Hl eq_refl walk_to_one "harmonic_sequence" "basic_frequency") as [_ H].
    exact (H (or_intror (conj eq_refl eq_refl))).
Defined.

End DecoderFacts.

Module TravelFacts.

Import Travel.

(** *** The states of a playthrough *)

Lemma states_closed_true : states_closed = true.
Proof. vm_compute. reflexivity. Qed.

Lemma states_visited_known : forallb visited_known states = true.
Proof. vm_compute. reflexivity. Qed.

Lemma known_In s : known s = true <-> In s states.
Proof.
  unfold known. rewrite existsb_exists. split.
  - intros [s' [Hin Heq]]. apply bool_decide_eq_true in Heq. now subst.
  - intros H. exists s. split; [exact H | now apply bool_decide_eq_true].
Qed.

Lemma route_of_key g k r :
  route_of g k = Some r -> In k (map fst (routes (database g))).
Proof.
  unfold route_of. destruct (List.find _ _) as [p|] eqn:E; [|discriminate].
  intros _. apply find_some in E. destruct E as [Hin Heq].
  apply String.eqb_eq in Heq. subst k. now apply in_map.
Qed.

Lemma run_travel a l g : run (a :: l) g = run l (fst (execute a g)).
Proof. reflexivity. Qed.

Lemma reachable_journeys l g : reachable g -> reachable (run l g).
Proof.
  revert g. induction l as [|a l IH]; intros g Hg; [exact Hg|].
  rewrite run_travel. apply IH. now constructor.
Qed.

Lemma inv_init : inv init.
Proof. split; [reflexivity | now left]. Qed.

Lemma inv_execute a g :
  inv g ->
  inv (fst (execute a g)) /\ is_step_rejection (snd (execute a g)) = false.
Proof.
  intros [Hdb Hst].
  assert (Hquiet : forall r, fst (execute a g) = g ->
            is_step_rejection r = false ->
            inv (fst (execute a g)) /\ is_step_rejection r = false).
  { intros r -> Hr. split; [now split | exact Hr]. }
  destruct a; cbn [execute].
  - apply Hquiet; cbn [execute]; unfold CheckRoutesTool_execute;
      repeat case_match; reflexivity.
  - destruct (route_of g routeKey) as [r|] eqn:Hr.
    + apply route_of_key in Hr. rewrite Hdb in Hr.
      pose proof states_closed_true as Hc. unfold states_closed in Hc.
      pose proof (proj1 (forallb_forall _ _) Hc _ Hst) as Hc1.
      pose proof (proj1 (forallb_forall _ _) Hc1 _ Hr) as Hc2.
      unfold journey_ok, journey in Hc2.
      replace (with_state (state g)) with g in Hc2
        by (destruct g as [s d]; cbn [database state] in *; now subst d).
      apply andb_true_iff in Hc2. destruct Hc2 as [Hc2 _].
      apply andb_true_iff in Hc2. destruct Hc2 as [Hk Hn].
      apply known_In in Hk. apply negb_true_iff in Hn.
      split; [split|]; try assumption.
      rewrite <- Hdb. unfold TravelTool_execute.
      repeat case_match; reflexivity.
    + apply Hquiet; cbn [execute]; unfold TravelTool_execute; rewrite Hr;
        reflexivity.
  - apply Hquiet; cbn [execute]; unfold PlanRouteTool_execute;
      repeat case_match; reflexivity.
Qed.

Lemma reachable_inv g : reachable g -> inv g.
Proof. induction 1; [apply inv_init | now apply inv_execute]. Qed.

(** The step guard of [TravelTool] is in the model: it rejects a journey
    from a state with all eight steps used and money left, a state that no
    playthrough reaches. *)
Example step_guard_fires_off_path :
  snd (journey "newyork-paris"
         {| currentCity := "newyork"; budget := 2000; visitedCities := ["newyork"];
            totalSpent := 0; score := 0; stepCount := 8; completed := false |})
  = ErrorResult (NotEnoughSteps 1 0).
Proof. vm_compute. reflexivity. Qed.

(** *** The final score *)

Lemma cityScore_sum g (l : list string) (acc : Z) :
  (forall c, In c l -> is_Some (cities (database g) !! c)) ->
  fold_left (fun sum city =>
               s ← sum; c ← cities (database g) !! city; Some (s + city_value c))
    l (Some acc)
  = Some (acc + fold_right Z.add 0 (map (value_of g) l)).
Proof.
  revert acc. induction l as [|x l IH]; intros acc Hl; cbn [fold_left map fold_right].
  - f_equal. lia.
  - destruct (Hl x (or_introl eq_refl)) as [c Hc].
    unfold value_of at 1. cbn [mbind option_bind]. rewrite Hc. cbn [mbind option_bind].
    rewrite IH by (intros; apply Hl; now right). f_equal. lia.
Qed.

Lemma allVisited_spec g :
  allVisited g = true <->
  forall c, In c requiredCities -> In c (visitedCities (state g)).
Proof.
  unfold allVisited. rewrite forallb_forall.
  split; intros H c Hc; apply JsFacts.includes_In, H, Hc.
Qed.

Lemma reachable_visited g c :
  reachable g -> In c (visitedCities (state g)) ->
  is_Some (cities (database g) !! c).
Proof.
  intros Hr Hc. destruct (reachable_inv g Hr) as [Hdb Hst]. rewrite Hdb.
  pose proof (proj1 (forallb_forall _ _) states_visited_known _ Hst) as Hv.
  unfold visited_known in Hv.
  pose proof (proj1 (forallb_forall _ _) Hv _ Hc) as Hs.
  now apply bool_decide_eq_true in Hs.
Qed.

Lemma visited_known_spec s c :
  visited_known s = true -> In c (visitedCities s) -> is_Some (init_cities !! c).
Proof.
  unfold visited_known. intros H Hc.
  pose proof (proj1 (forallb_forall _ _) H _ Hc) as Hs.
  now apply bool_decide_eq_true in Hs.
Qed.

(** No playthrough visits all five required cities: the completion bonus is
    in [getFinalScore], and out of reach of the game. *)
Lemma completion_out_of_reach g : reachable g -> allVisited g = false.
Proof.
  intros Hr. destruct (reachable_inv g Hr) as [Hdb Hst].
  assert (Hall : forallb (fun s => negb (allVisited (with_state s))) states = true)
    by (vm_compute; reflexivity).
  pose proof (proj1 (forallb_forall _ _) Hall _ Hst) as H.
  apply negb_true_iff in H. exact H.
Qed.

(** C8. For every game object whose visited cities are cities of the table
    (for another one [getFinalScore] throws), the final score of the travel
    game is the sum of the values of the visited cities, plus 5 for every
    whole hundred of the remaining budget, plus a bonus that is 500 when all
    five required cities are visited and 0 otherwise. It is a function of
    the visited cities and the budget alone: steps, spending and the running
    score do not enter it. *)
Theorem travel_final_score (g : TravelGame) :
  (forall c, In c (visitedCities (state g)) ->
             is_Some (cities (database g) !! c)) ->
  exists hundreds bonus : Z,
    getFinalScore g = Some (visited_value g + hundreds * 5 + bonus) /\
    100 * hundreds <= budget (state g) < 100 * (hundreds + 1) /\
    (bonus = 500 /\
       (forall c, In c ["paris"; "tokyo"; "sydney"; "rio"; "capetown"] ->
                  In c (visitedCities (state g))) \/
     bonus = 0 /\
       ~ (forall c, In c ["paris"; "tokyo"; "sydney"; "rio"; "capetown"] ->
                    In c (visitedCities (state g)))) /\
    (forall g', database g' = database g ->
                visitedCities (state g') = visitedCities (state g) ->
                budget (state g') = budget (state g) ->
                getFinalScore g' = getFinalScore g).
Proof.
  intros Hk.
  exists (budget (state g) / 100), (if allVisited g then 500 else 0).
  split; [|split; [|split]].
  - unfold getFinalScore. cbv zeta.
    rewrite cityScore_sum by exact Hk.
    cbn [mbind option_bind]. unfold visited_value. f_equal; lia.
  - pose proof (Z.div_mod (budget (state g)) 100 ltac:(lia)) as Hd.
    pose proof (Z.mod_pos_bound (budget (state g)) 100 ltac:(lia)) as Hm.
    lia.
  - destruct (allVisited g) eqn:Ha.
    + left. split; [reflexivity|]. now apply allVisited_spec.
    + right. split; [reflexivity|]. intros H.
      apply allVisited_spec in H. congruence.
  - intros g' Hd Hv Hb. unfold getFinalScore, allVisited. now rewrite Hd, Hv, Hb.
Qed.

Lemma travel_final_score_witness :
  getFinalScore (run [travel "newyork-paris"] init) = Some (200 + 12 * 5 + 0) /\
  getFinalScore toured = Some (760 + 2 * 5 + 500).
Proof.
  split.
  - destruct (travel_final_score (run [travel "newyork-paris"] init)
                (fun c => visited_known_spec
                            (state (run [travel "newyork-paris"] init)) c
                            ltac:(vm_compute; reflexivity)))
      as (h & b & Hs & Hh & [[-> Hall]|[-> _]] & _).
    + exfalso. specialize (Hall "tokyo" ltac:(right; now left)).
      vm_compute in Hall. intuition discriminate.
    + rewrite Hs.
      assert (Hb : budget (state (run [travel "newyork-paris"] init)) = 1200)
        by (vm_compute; reflexivity).
      rewrite Hb in Hh. assert (h = 12) as -> by lia.
      vm_compute. reflexivity.
  - destruct (travel_final_score toured
                (fun c => visited_known_spec (state toured) c
                            ltac:(vm_compute; reflexivity)))
      as (h & b & Hs & Hh & [[-> _]|[-> Hnot]] & _).
    + rewrite Hs.
      assert (Hb : budget (state toured) = 250) by reflexivity.
      rewrite Hb in Hh. assert (h = 2) as -> by lia.
      vm_compute. reflexivity.
    + exfalso. apply Hnot. intros c Hc.
      repeat (destruct Hc as [<-|Hc]; [vm_compute; tauto|]). destruct Hc.
Defined.

End TravelFacts.

(** ** Steps are counted, not capped *)

Lemma decoder_steps_not_read (a : Decoder.Action) (n : Z) (g : Decoder.DecoderGame) :
  Decoder.is_error (snd (Decoder.execute a (set_steps n g))) =
  Decoder.is_error (snd (Decoder.execute a g)) /\
  forall e, snd (Decoder.execute a g) = Decoder.ErrorResult e ->
            snd (Decoder.execute a (set_steps n g)) = Decoder.ErrorResult e.
Proof.
  destruct g as [s db]. destruct s.
  split; [|intros e]; destruct a; DecoderFacts.unfold_tools;
    unfold set_steps, Decoder.upd_state, Decoder.analyzeCost, Decoder.decodeCost,
      Decoder.findClue, Decoder.lookupRecipe;
    cbn; repeat case_match; simplify_eq; try reflexivity; try discriminate;
    auto.
Qed.

(** C6. No tool of either game rejects a call for want of steps in any state
    of a playthrough. In the travel game the rejection [NotEnoughSteps] is
    never returned: [TravelTool] has a guard for it, placed after the budget
    check, and on every path that would exceed eight steps the budget runs
    out first. In the decoder game whether a call is rejected, and with
    which error, does not depend on the step counter at all. *)
Theorem no_step_ceiling_rejection :
  (forall (g : Travel.TravelGame) (a : Travel.Action),
     Travel.reachable g ->
     Travel.is_step_rejection (snd (Travel.execute a g)) = false) /\
  (forall (g : Decoder.DecoderGame) (a : Decoder.Action) (n : Z),
     Decoder.is_error (snd (Decoder.execute a (set_steps n g))) =
     Decoder.is_error (snd (Decoder.execute a g)) /\
     forall e, snd (Decoder.execute a g) = Decoder.ErrorResult e ->
               snd (Decoder.execute a (set_steps n g)) = Decoder.ErrorResult e).
Proof.
  split.
  - intros g a Hr. now apply TravelFacts.inv_execute, TravelFacts.reachable_inv.
  - intros g a n. apply decoder_steps_not_read.
Qed.

Lemma no_step_ceiling_rejection_witness :
  Travel.is_step_rejection
    (snd (Travel.execute (Travel.travel "sydney-capetown")
            (Travel.run [Travel.travel "newyork-paris"; Travel.travel "paris-tokyo";
                         Travel.travel "tokyo-sydney_bus"] Travel.init))) = false.
Proof.
  apply (proj1 no_step_ceiling_rejection).
  apply TravelFacts.reachable_journeys, Travel.reachable_init.
Defined.
